(** * dvln/api: the JSON result builder, embedded and verified

    A shallow embedding of [api.go] and [json.go] of the package [api]:
    the message accumulators, the result root and its item section, the
    escaping routine, the formatter, the fallback builder and the output
    builder.

    Conventions of the embedding:
    - a Go [string] is a [string]; a Go [[]byte] is a [list byte];
      [[]byte(s)] is [list_byte_of_string s] and [string(b)] is
      [string_of_list_byte b];
    - a Go [int] is a [Z] (the code does no arithmetic on them, so no
      wrap-around arises);
    - an [interface{}] field of the root that holds a [Msg], or nothing, is an
      [option Msg];
    - the package variables are the fields of the record [Globals];
    - [encoding/json]'s [Marshal] and [Indent], [os.Getenv] and [str.Pad] are
      not code of this package: they are variables of the section that holds
      the functions calling them. *)

From Stdlib Require Import ZArith NArith List Bool Lia.
From Stdlib.Strings Require Import String Ascii Byte.
From Stdlib Require Import DecimalString.
Import ListNotations.

Local Open Scope string_scope.

(** ** Text helpers *)

(** The double-quote character, as a one-character string. *)
Definition dq : string := String (ascii_of_nat 34) EmptyString.

(** [fmt]'s [%d] verb on an [int]. *)
Definition fmt_d (n : Z) : string := NilEmpty.string_of_int (Z.to_int n).

(** [cast.ToString] of package [cast] on a [[]byte] argument: the [[]byte]
    case of its type switch returns [string(s)]. *)
Definition cast_ToString (b : list byte) : string := string_of_list_byte b.

(** ** The escaping routine ([json.go]) *)

Module Escaper.

Local Open Scope list_scope.

(** [u := []byte(`\u0000`)] *)
Definition u : list byte := list_byte_of_string "\u0000".

(** [encoding/hex]: [const hextable = "0123456789abcdef"]. *)
Definition hextable : list byte := list_byte_of_string "0123456789abcdef".

(** [hex.Encode(dst, src)]: for each byte [v] of [src] it stores
    [hextable[v>>4]] and [hextable[v&0x0f]] in the next two cells of [dst];
    the cells of [dst] after them are left as they were. *)
Definition hex_digits (v : byte) : list byte :=
  [ nth (N.to_nat (N.shiftr (Byte.to_N v) 4)) hextable x00;
    nth (N.to_nat (N.land (Byte.to_N v) 15)) hextable x00 ].

Definition hex_Encode (dst src : list byte) : list byte :=
  let w := flat_map hex_digits src in
  w ++ skipn (List.length w) dst.

(** The test of [EscapeJSONString]: [ch <= 31 || ch == 34]. *)
Definition json_ctrl (ch : byte) : bool :=
  (Byte.to_N ch <=? 31)%N || (Byte.to_N ch =? 34)%N.

(** The test of the earlier [EscapeCtrl]: [ch <= 31]. *)
Definition ctrl_only (ch : byte) : bool := (Byte.to_N ch <=? 31)%N.

(** The body of the [for i, ch := range ctrl] loop, shared by
    [EscapeJSONString] and [EscapeCtrl], which differ in the test only.
    [esc] is the named result: [None] is the nil slice, and [Some e] a slice
    that was allocated.  [i] is the index of the head of [rest] in [ctrl]. *)
Fixpoint escape_loop (test : byte -> bool) (ctrl : list byte) (i : nat)
    (rest : list byte) (esc : option (list byte)) : option (list byte) :=
  match rest with
  | [] => esc
  | ch :: rest' =>
      if test ch then
        (* if esc == nil { esc = append(make([]byte, 0, ...), ctrl[:i]...) } *)
        let esc0 := match esc with None => firstn i ctrl | Some e => e end in
        (* esc = append(esc, u...) *)
        let esc1 := esc0 ++ u in
        (* hex.Encode(esc[len(esc)-2:], ctrl[i:i+1]) *)
        let cut := List.length esc1 - 2 in
        let esc2 := firstn cut esc1 ++ hex_Encode (skipn cut esc1) [ch] in
        escape_loop test ctrl (S i) rest' (Some esc2)
      else
        (* if esc != nil { esc = append(esc, ch) } *)
        escape_loop test ctrl (S i) rest'
          (match esc with None => None | Some e => Some (e ++ [ch]) end)
  end.

(** The routine itself, for a test: the loop from a nil [esc], then
    [if esc == nil { return ctrl }; return esc]. *)
Definition escape_with (test : byte -> bool) (ctrl : list byte) : list byte :=
  match escape_loop test ctrl 0 ctrl None with
  | None => ctrl
  | Some esc => esc
  end.

Definition EscapeJSONString (ctrl : list byte) : list byte :=
  escape_with json_ctrl ctrl.

Definition EscapeCtrl (ctrl : list byte) : list byte :=
  escape_with ctrl_only ctrl.

(** *** The escaping rule in the words of the specification *)

(** The value of a hexadecimal digit, for decoding a [\u00XX] sequence. *)
Definition hex_value (d : byte) : option N :=
  let n := Byte.to_N d in
  if ((48 <=? n) && (n <=? 57))%N then Some (n - 48)%N
  else if ((97 <=? n) && (n <=? 102))%N then Some (n - 87)%N
  else None.

(** The two-digit hexadecimal encoding of a byte: sixteens, then units. *)
Definition two_hex (ch : byte) : list byte :=
  [ nth (N.to_nat (Byte.to_N ch / 16)) hextable x00;
    nth (N.to_nat (Byte.to_N ch mod 16)) hextable x00 ].

(** What one byte becomes: the six characters [\u00XX] when the test holds,
    the byte itself otherwise. *)
Definition escape_byte (test : byte -> bool) (ch : byte) : list byte :=
  if test ch then list_byte_of_string "\u00" ++ two_hex ch else [ch].

Definition escape_spec (test : byte -> bool) (b : list byte) : list byte :=
  flat_map (escape_byte test) b.

(** A list none of whose bytes passes the test. *)
Definition clean (test : byte -> bool) (b : list byte) : bool :=
  forallb (fun ch => negb (test ch)) b.

(** A six-byte sequence is [\u00XX] with [XX] the hexadecimal digits of the
    value of [ch]. *)
Definition is_u00XX_of (six : list byte) (ch : byte) : bool :=
  match six with
  | [b0; b1; b2; b3; h; l] =>
      Byte.eqb b0 x5c && Byte.eqb b1 x75 && Byte.eqb b2 x30 && Byte.eqb b3 x30
      && match hex_value h, hex_value l with
         | Some hv, Some lv => (16 * hv + lv =? Byte.to_N ch)%N
         | _, _ => false
         end
  | _ => false
  end.

(** The number of bytes of [b] the routine escapes. *)
Definition escaped_count (test : byte -> bool) (b : list byte) : nat :=
  List.length (filter test b).

(** Lists that hold no backslash (92), and no double quote (34). *)
Definition no_backslash (b : list byte) : bool :=
  forallb (fun ch => negb (Byte.eqb ch x5c)) b.

Definition no_quote (b : list byte) : bool :=
  forallb (fun ch => negb (Byte.to_N ch =? 34)%N) b.

End Escaper.

(** [string(EscapeJSONString([]byte(s)))], as [GetJSONOutput] and
    [encodeMsgInRawJSON] apply the routine to a message's text. *)
Definition escape_text (s : string) : string :=
  string_of_list_byte (Escaper.EscapeJSONString (list_byte_of_string s)).

(** A text between double quotes. *)
Definition quoted (s : string) : string := dq ++ s ++ dq.

(** The line feed that [PrettyJSON] appends. *)
Definition newline : string := String (ascii_of_nat 10) EmptyString.

(** ** Messages and the accumulators ([api.go]) *)

(** [type Msg struct { Message string; Code int; Level string }] *)
Record Msg : Type := mkMsg {
  Message : string;
  Code : Z;
  Level : string
}.

(** The zero value of [Msg], which [var m Msg] declares. *)
Definition zeroMsg : Msg := mkMsg "" 0 "".

Definition NewMsg (msg : string) (code : Z) (level : string) : Msg :=
  mkMsg msg code level.

(** Assignments to one field of a [Msg] variable. *)
Definition with_Message (m : Msg) (s : string) : Msg := mkMsg s (Code m) (Level m).
Definition with_Code (m : Msg) (c : Z) : Msg := mkMsg (Message m) c (Level m).
Definition with_Level (m : Msg) (l : string) : Msg := mkMsg (Message m) (Code m) l.

(** The package variables: the formatter's settings of [json.go] and the three
    accumulators of [api.go]. *)
Record Globals : Type := mkGlobals {
  jsonIndentLevel : Z;
  jsonPrefix : string;
  jsonRaw : bool;
  storedFatalError : Msg;
  storedNonFatalWarning : Msg;
  storedNote : Msg
}.

(** The package variables as their declarations initialise them. *)
Definition initGlobals : Globals := mkGlobals 2 "" false zeroMsg zeroMsg zeroMsg.

Definition SetJSONIndentLevel (g : Globals) (level : Z) : Globals :=
  mkGlobals level (jsonPrefix g) (jsonRaw g)
    (storedFatalError g) (storedNonFatalWarning g) (storedNote g).

Definition SetJSONPrefix (g : Globals) (pfx : string) : Globals :=
  mkGlobals (jsonIndentLevel g) pfx (jsonRaw g)
    (storedFatalError g) (storedNonFatalWarning g) (storedNote g).

Definition SetJSONRaw (g : Globals) (b : bool) : Globals :=
  mkGlobals (jsonIndentLevel g) (jsonPrefix g) b
    (storedFatalError g) (storedNonFatalWarning g) (storedNote g).

Definition SetStoredFatalError (g : Globals) (msg : Msg) : Globals :=
  mkGlobals (jsonIndentLevel g) (jsonPrefix g) (jsonRaw g)
    msg (storedNonFatalWarning g) (storedNote g).

(** The variadic [defCode ...int] of the two additive setters.  [None] is the
    nil slice of a call that passes no default; [Some l] is a slice that is
    not nil.  [defCode[0]] on a slice that is not nil and has no element is a
    run-time panic, for which the setters return [None]. *)
Definition defaultCode_of (defCode : option (list Z)) : option Z :=
  match defCode with
  | None => Some 0%Z
  | Some [] => None
  | Some (d :: _) => Some d
  end.

Definition SetStoredNonFatalWarning (g : Globals) (msg : Msg)
    (defCode : option (list Z)) : option Globals :=
  match defaultCode_of defCode with
  | None => None
  | Some defaultCode =>
      let msg :=
        if negb (Message (storedNonFatalWarning g) =? "") then
          let msg :=
            with_Message msg (Message msg ++ Message (storedNonFatalWarning g)) in
          if (Code msg =? 0)%Z || (Code msg =? defaultCode)%Z then
            if negb ((Code (storedNonFatalWarning g) =? 0)%Z
                     || (Code (storedNonFatalWarning g) =? defaultCode)%Z)
            then with_Code msg (Code (storedNonFatalWarning g))
            else msg
          else msg
        else msg in
      Some (mkGlobals (jsonIndentLevel g) (jsonPrefix g) (jsonRaw g)
              (storedFatalError g) msg (storedNote g))
  end.

Definition SetStoredNote (g : Globals) (msg : Msg)
    (defCode : option (list Z)) : option Globals :=
  match defaultCode_of defCode with
  | None => None
  | Some defaultCode =>
      let msg :=
        if negb (Message (storedNote g) =? "") then
          let msg := with_Message msg (Message msg ++ Message (storedNote g)) in
          if (Code msg =? 0)%Z || (Code msg =? defaultCode)%Z then
            if negb ((Code (storedNote g) =? 0)%Z
                     || (Code (storedNote g) =? defaultCode)%Z)
            then with_Code msg (Code (storedNote g))
            else msg
          else msg
        else msg in
      Some (mkGlobals (jsonIndentLevel g) (jsonPrefix g) (jsonRaw g)
              (storedFatalError g) (storedNonFatalWarning g) msg)
  end.

(** ** The result root, the formatter and the builders *)

Section Api.

(** The values of the item list, [[]interface{}]: opaque to this package. *)
Variable Item : Type.

(** Go's [error] values, with their [Error()] text. *)
Variable error : Type.
Variable err_Error : error -> string.

(** [type jsonData struct], local to [SetAPIItems]. *)
Record jsonData : Type := mkJsonData {
  Kind : string;
  Verbosity : string;
  Fields : list string;
  TotalItems : Z;
  StartIndex : Z;
  CurrentItemCount : Z;
  Items : list Item
}.

(** [type apiData struct].  [Note], [Warning] and [Error] are [interface{}]
    fields that hold a [Msg] or nothing; [Data] holds the [*jsonData] of
    [SetAPIItems] or nothing. *)
Record apiData : Type := mkApiData {
  APIVersion : string;
  Context : string;
  ID : Z;
  Note : option Msg;
  Warning : option Msg;
  Error : option Msg;
  Data : option jsonData
}.

(** [json.Marshal(apiRoot)]: the encoded bytes, or an error. *)
Variable json_Marshal : apiData -> list byte + error.

(** [json.Indent(&out, b, prefix, indent)]: the bytes it leaves in the buffer
    [out], and its error, if any. *)
Variable json_Indent : list byte -> string -> string -> list byte * option error.

(** [os.Getenv]. *)
Variable os_Getenv : string -> string.

(** [str.Pad(s, c, n)] of package [str]. *)
Variable str_Pad : string -> string -> Z -> string.

Definition newAPIData (apiVersion context : string) : apiData :=
  mkApiData apiVersion context 0 None None None None.

(** [r.Data = &data; return r], on the root [r] the method is called on. *)
Definition SetAPIItems (r : apiData) (kind verbosity : string)
    (fields : list string) (items : list Item) : apiData :=
  let length := Z.of_nat (List.length items) in
  let data := mkJsonData kind verbosity fields length 1 length items in
  mkApiData (APIVersion r) (Context r) (ID r) (Note r) (Warning r) (Error r)
    (Some data).

(** Assignments to one field of the root, as [GetJSONOutput] makes them. *)
Definition set_ID (r : apiData) (id : Z) : apiData :=
  mkApiData (APIVersion r) (Context r) id (Note r) (Warning r) (Error r) (Data r).
Definition set_Note (r : apiData) (m : Msg) : apiData :=
  mkApiData (APIVersion r) (Context r) (ID r) (Some m) (Warning r) (Error r) (Data r).
Definition set_Warning (r : apiData) (m : Msg) : apiData :=
  mkApiData (APIVersion r) (Context r) (ID r) (Note r) (Some m) (Error r) (Data r).
Definition set_Error (r : apiData) (m : Msg) : apiData :=
  mkApiData (APIVersion r) (Context r) (ID r) (Note r) (Warning r) (Some m) (Data r).

(** *** The formatter *)

Definition PrettyJSON (g : Globals) (b : list byte) (fmt : list string)
    : string * option error :=
  if jsonRaw g then (cast_ToString b, None)
  else
    let prefix := jsonPrefix g in
    let indent := str_Pad "" " " (jsonIndentLevel g) in
    let '(prefix, indent) :=
      match fmt with
      | [f0] => (f0, indent)
      | [f0; f1] => (f0, f1)
      | _ => (prefix, indent)
      end in
    let '(out, err) := json_Indent b prefix indent in
    (cast_ToString out ++ newline, err).

(** *** The fallback builder *)

Definition encodeMsgInRawJSON (flavor : string) (msg : Msg) : string :=
  if Message msg =? "" then ""
  else
    let cleanMsg := Escaper.EscapeJSONString (list_byte_of_string (Message msg)) in
    quoted flavor ++ ": { " ++ quoted "message" ++ ": "
      ++ quoted (string_of_list_byte cleanMsg)
      ++ ", " ++ quoted "code" ++ ": " ++ fmt_d (Code msg)
      ++ ", " ++ quoted "level" ++ ": " ++ quoted (Level msg) ++ "}".

(** The text [FatalJSONMsg] hands to [PrettyJSON]: its [rawJSON]. *)
Definition FatalJSONMsg_raw (g : Globals) (apiVer : string) (errMsg : Msg) : string :=
  let noteMsgJSON := encodeMsgInRawJSON "note" (storedNote g) in
  let warnMsgJSON := encodeMsgInRawJSON "warning" (storedNonFatalWarning g) in
  let errMsgJSON := encodeMsgInRawJSON "error" errMsg in
  let errMsgJSON :=
    if errMsgJSON =? "" then
      let errMsgJSON := encodeMsgInRawJSON "error" (storedFatalError g) in
      if errMsgJSON =? "" then
        let errMsg := NewMsg "Unknown Fatal Error (Coding Error?)" 0 "UNKNOWN" in
        encodeMsgInRawJSON "error" errMsg
      else errMsgJSON
    else errMsgJSON in
  let msgsJSON := "" in
  let msgsJSON := if negb (noteMsgJSON =? "") then noteMsgJSON ++ ", " else msgsJSON in
  let msgsJSON :=
    if negb (warnMsgJSON =? "") then msgsJSON ++ warnMsgJSON ++ ", " else msgsJSON in
  let msgsJSON := msgsJSON ++ errMsgJSON in
  let cmdError := (-1)%Z in
  "{ " ++ quoted "apiVersion" ++ ":" ++ quoted apiVer
    ++ ", " ++ quoted "id" ++ ": " ++ fmt_d cmdError ++ ", " ++ msgsJSON ++ " }".

Definition FatalJSONMsg (g : Globals) (apiVer : string) (errMsg : Msg) : string :=
  let rawJSON := FatalJSONMsg_raw g apiVer errMsg in
  match PrettyJSON g (list_byte_of_string rawJSON) [] with
  | (_, Some _) => rawJSON
  | (output, None) => output
  end.

(** *** The output builder *)

(** The local variables of [GetJSONOutput] that are live when it calls
    [json.Marshal] for the first time. *)
Record Locals : Type := mkLocals {
  l_apiVer : string;
  l_errMsg : Msg;
  l_warnMsg : Msg;
  l_fatalErr : bool;
  l_apiRoot : apiData
}.

(** [GetJSONOutput] up to its first [json.Marshal]: the version, the adoption
    of the accumulators and the root record. *)
Definition GetJSONOutput_root (g : Globals) (apiVer context kind verbosity : string)
    (fields : list string) (items : list Item) : Locals :=
  let errMsg := zeroMsg in
  let warnMsg := zeroMsg in
  let noteMsg := zeroMsg in
  let fatalErr := false in
  let '(apiVer, errMsg, fatalErr) :=
    if apiVer =? "" then
      let apiVer := os_Getenv "PKG_API_APIVER" in
      if apiVer =? "" then
        let apiVer := "?.?" in
        let errMsg := with_Message errMsg "No valid JSON API version is available" in
        let errMsg := with_Code errMsg 1001 in
        let errMsg := with_Level errMsg "FATAL" in
        (apiVer, errMsg, true)
      else (apiVer, errMsg, fatalErr)
    else (apiVer, errMsg, fatalErr) in
  let apiRoot := newAPIData apiVer context in
  let '(errMsg, fatalErr) :=
    if (Message errMsg =? "") && negb (Message (storedFatalError g) =? "") then
      let errMsg := storedFatalError g in
      let cleanErrMsg := Escaper.EscapeJSONString (list_byte_of_string (Message errMsg)) in
      (with_Message errMsg (string_of_list_byte cleanErrMsg), true)
    else (errMsg, fatalErr) in
  let warnMsg :=
    if negb (Message (storedNonFatalWarning g) =? "") then
      let warnMsg := storedNonFatalWarning g in
      let cleanWarnMsg := Escaper.EscapeJSONString (list_byte_of_string (Message warnMsg)) in
      with_Message warnMsg (string_of_list_byte cleanWarnMsg)
    else warnMsg in
  let noteMsg :=
    if negb (Message (storedNote g) =? "") then
      let noteMsg := storedNote g in
      let cleanNoteMsg := Escaper.EscapeJSONString (list_byte_of_string (Message noteMsg)) in
      with_Message noteMsg (string_of_list_byte cleanNoteMsg)
    else noteMsg in
  let apiRoot :=
    if Message errMsg =? "" then
      let apiRoot := SetAPIItems apiRoot kind verbosity fields items in
      let apiRoot :=
        if negb (Message warnMsg =? "") then set_Warning apiRoot warnMsg else apiRoot in
      if negb (Message noteMsg =? "") then set_Note apiRoot noteMsg else apiRoot
    else
      let apiRoot := set_ID apiRoot (-1) in
      set_Error apiRoot errMsg in
  mkLocals apiVer errMsg warnMsg fatalErr apiRoot.

(** The warning [GetJSONOutput] records when [PrettyJSON] fails on the first
    encoding: three field assignments on [warnMsg]. *)
Definition beautify_warning (warnMsg : Msg) (err : error) : Msg :=
  let warnMsg :=
    with_Message warnMsg ("Unable to beautify JSON output: " ++ err_Error err) in
  let warnMsg := with_Code warnMsg 1003 in
  with_Level warnMsg "ISSUE".

(** [GetJSONOutput] from its first [json.Marshal] on. *)
Definition GetJSONOutput_emit (g : Globals) (l : Locals) : string * bool :=
  let apiVer := l_apiVer l in
  let errMsg := l_errMsg l in
  let warnMsg := l_warnMsg l in
  let fatalErr := l_fatalErr l in
  let apiRoot := l_apiRoot l in
  match json_Marshal apiRoot with
  | inr _ =>
      let '(errMsg, fatalErr) :=
        if Message errMsg =? "" then
          let errMsg := with_Message errMsg "Unable to marshal basic JSON API string" in
          let errMsg := with_Code errMsg 1002 in
          let errMsg := with_Level errMsg "FATAL" in
          (errMsg, true)
        else (errMsg, fatalErr) in
      let rawJSON := FatalJSONMsg g apiVer errMsg in
      (rawJSON, fatalErr)
  | inl j =>
      match PrettyJSON g j [] with
      | (output, None) => (output, fatalErr)
      | (_, Some err) =>
          let warnMsg := beautify_warning warnMsg err in
          let apiRoot := set_Warning apiRoot warnMsg in
          match json_Marshal apiRoot with
          | inr _ =>
              let warnMsg := with_Level warnMsg "FATAL" in
              let fatalErr := true in
              let rawJSON := FatalJSONMsg g apiVer warnMsg in
              (rawJSON, fatalErr)
          | inl j =>
              match PrettyJSON g j [] with
              | (_, Some _) => (cast_ToString j, fatalErr)
              | (output, None) => (output, fatalErr)
              end
          end
      end
  end.

Definition GetJSONOutput (g : Globals) (apiVer context kind verbosity : string)
    (fields : list string) (items : list Item) : string * bool :=
  GetJSONOutput_emit g
    (GetJSONOutput_root g apiVer context kind verbosity fields items).

(** * The vocabulary of the properties

    Definitions in the words of the specification, which the theorems below
    compare with the functions above. *)

(** ** The accumulators *)

(** The code the additive setters store when a message is already latched:
    the old code when the new one is unset or the default and the old one is
    neither, the new code otherwise. *)
Definition merged_code (old new : Msg) (defaultCode : Z) : Z :=
  if ((Code new =? 0)%Z || (Code new =? defaultCode)%Z)
     && negb ((Code old =? 0)%Z || (Code old =? defaultCode)%Z)
  then Code old else Code new.

(** What the additive setters store over a latched message [old]. *)
Definition merged (old new : Msg) (defaultCode : Z) : Msg :=
  mkMsg (Message new ++ Message old) (merged_code old new defaultCode) (Level new).

(** Calls of an additive setter on the messages of a list, one after the
    other, the head of the list first, all with the same [defCode]. *)
Fixpoint latch_warnings (g : Globals) (msgs : list Msg) (defCode : option (list Z))
    : option Globals :=
  match msgs with
  | [] => Some g
  | m :: rest =>
      match SetStoredNonFatalWarning g m defCode with
      | None => None
      | Some g' => latch_warnings g' rest defCode
      end
  end.

Fixpoint latch_notes (g : Globals) (msgs : list Msg) (defCode : option (list Z))
    : option Globals :=
  match msgs with
  | [] => Some g
  | m :: rest =>
      match SetStoredNote g m defCode with
      | None => None
      | Some g' => latch_notes g' rest defCode
      end
  end.

(** The texts of a list of messages, joined with no separator, the last
    message first. *)
Definition texts_newest_first (msgs : list Msg) : string :=
  String.concat "" (rev (map Message msgs)).


(** ** The root record of the output builder *)

(** The version [GetJSONOutput] works with, and whether it found none. *)
Definition version_missing (apiVer : string) : bool :=
  (apiVer =? "") && (os_Getenv "PKG_API_APIVER" =? "").

Definition resolved_version (apiVer : string) : string :=
  if apiVer =? "" then
    if os_Getenv "PKG_API_APIVER" =? "" then "?.?" else os_Getenv "PKG_API_APIVER"
  else apiVer.

(** The error [GetJSONOutput] raises when it finds no version. *)
Definition no_version_error : Msg :=
  mkMsg "No valid JSON API version is available" 1001 "FATAL".

(** A latched message as [GetJSONOutput] adopts it: its text escaped. *)
Definition adopted (m : Msg) : Msg := with_Message m (escape_text (Message m)).

(** The active error of [GetJSONOutput] at its first encoding: the missing
    version, else the latched fatal error, else none. *)
Definition active_error (g : Globals) (apiVer : string) : Msg :=
  if version_missing apiVer then no_version_error
  else if Message (storedFatalError g) =? "" then zeroMsg
  else adopted (storedFatalError g).

(** A latched warning or note as [GetJSONOutput] carries it forward. *)
Definition carried (m : Msg) : Msg :=
  if Message m =? "" then zeroMsg else adopted m.

(** ** The fallback builder *)

(** The fragment of one message: ["<flavor>": { "message": "<escaped>",
    "code": <n>, "level": "<level>"}]. *)
Definition msg_fragment (flavor : string) (m : Msg) : string :=
  quoted flavor ++ ": { " ++ quoted "message" ++ ": " ++ quoted (escape_text (Message m))
    ++ ", " ++ quoted "code" ++ ": " ++ fmt_d (Code m)
    ++ ", " ++ quoted "level" ++ ": " ++ quoted (Level m) ++ "}".

(** The fragment of a latched note or warning, with the separator that follows
    it; nothing when the accumulator is empty. *)
Definition optional_fragment (flavor : string) (m : Msg) : string :=
  if Message m =? "" then "" else msg_fragment flavor m ++ ", ".

(** The fixed shape of the fallback text, for the error [e]. *)
Definition fallback_fragment (g : Globals) (apiVer : string) (e : Msg) : string :=
  "{ " ++ quoted "apiVersion" ++ ":" ++ quoted apiVer ++ ", " ++ quoted "id" ++ ": -1, "
    ++ optional_fragment "note" (storedNote g)
    ++ optional_fragment "warning" (storedNonFatalWarning g)
    ++ msg_fragment "error" e ++ " }".

(** The message [FatalJSONMsg] reports as the error: the one it is given when
    that has a text, else the latched fatal error when that has a text, else
    a fixed message. *)
Definition effective_error (g : Globals) (errMsg : Msg) : Msg :=
  if negb (Message errMsg =? "") then errMsg
  else if negb (Message (storedFatalError g) =? "") then storedFatalError g
  else mkMsg "Unknown Fatal Error (Coding Error?)" 0 "UNKNOWN".

(** ** The output builder *)

(** The error [GetJSONOutput] hands to the fallback builder when the first
    encoding fails: the active error, or the encoding error it raises when
    there is none. *)
Definition marshal_error (errMsg : Msg) : Msg :=
  if Message errMsg =? "" then
    mkMsg "Unable to marshal basic JSON API string" 1002 "FATAL"
  else errMsg.

(** Where the text [out] returned for the locals [l] comes from.  With [r]
    the root and [r2] the root with the formatting warning attached:
    - the formatted encoding of [r];
    - after a formatting failure, the encoding of [r2], formatted, or as it
      is when formatting fails again;
    - when [r] cannot be encoded, the fallback text for the active error;
    - when [r2] cannot be encoded, the fallback text for the formatting
      warning raised to level FATAL. *)
Definition emitted (g : Globals) (l : Locals) (out : string) : Prop :=
  let r := l_apiRoot l in
  let r2 err := set_Warning r (beautify_warning (l_warnMsg l) err) in
  (exists j, json_Marshal r = inl j /\ PrettyJSON g j [] = (out, None))
  \/ (exists j err j2,
        json_Marshal r = inl j /\ snd (PrettyJSON g j []) = Some err
        /\ json_Marshal (r2 err) = inl j2
        /\ (PrettyJSON g j2 [] = (out, None)
            \/ (snd (PrettyJSON g j2 []) <> None /\ out = cast_ToString j2)))
  \/ (exists e, json_Marshal r = inr e
        /\ out = FatalJSONMsg g (l_apiVer l) (marshal_error (l_errMsg l)))
  \/ (exists j err e,
        json_Marshal r = inl j /\ snd (PrettyJSON g j []) = Some err
        /\ json_Marshal (r2 err) = inr e
        /\ out = FatalJSONMsg g (l_apiVer l)
                   (with_Level (beautify_warning (l_warnMsg l) err) "FATAL")).

(** * Properties *)

(** ** The escaping routine *)

Section EscaperFacts.

Import Escaper.
Local Open Scope list_scope.

Variable test : byte -> bool.

Lemma clean_app (a b : list byte) : clean test (a ++ b) = clean test a && clean test b.
Proof. apply forallb_app. Qed.

Lemma hex_digits_two_hex (ch : byte) : hex_digits ch = two_hex ch.
Proof.
  unfold hex_digits, two_hex.
  rewrite N.shiftr_div_pow2.
  change 15%N with (N.ones 4).
  rewrite N.land_ones.
  reflexivity.
Qed.

(** One pass of the escaping branch appends the six characters to [esc]. *)
Lemma escape_branch (esc0 : list byte) (ch : byte) :
  test ch = true ->
  let esc1 := esc0 ++ u in
  let cut := List.length esc1 - 2 in
  firstn cut esc1 ++ hex_Encode (skipn cut esc1) [ch] = esc0 ++ escape_byte test ch.
Proof.
  intros Ht esc1 cut.
  assert (Hcut : cut = List.length esc0 + 4).
  { unfold cut, esc1. rewrite length_app. simpl. lia. }
  rewrite Hcut. unfold esc1.
  rewrite firstn_app, skipn_app.
  replace (List.length esc0 + 4 - List.length esc0) with 4 by lia.
  rewrite firstn_all2 by lia.
  rewrite skipn_all2 by lia.
  unfold escape_byte. rewrite Ht.
  rewrite <- hex_digits_two_hex.
  unfold hex_Encode. simpl.
  rewrite <- app_assoc. reflexivity.
Qed.

Lemma escape_spec_app (a b : list byte) :
  escape_spec test (a ++ b) = escape_spec test a ++ escape_spec test b.
Proof. apply flat_map_app. Qed.

Lemma escape_spec_clean (b : list byte) : clean test b = true -> escape_spec test b = b.
Proof.
  induction b as [|ch b IH]; simpl; intros H; [reflexivity|].
  apply andb_prop in H. destruct H as [Hc Hb].
  unfold escape_byte. destruct (test ch); [discriminate|].
  simpl. f_equal. exact (IH Hb).
Qed.

(** The loop invariant: while [esc] is nil the bytes read so far are clean,
    and once it is allocated it holds the escaped form of the bytes read. *)
Lemma escape_loop_inv (rest : list byte) :
  forall (pre ctrl : list byte) (i : nat) (esc : option (list byte)),
  ctrl = pre ++ rest ->
  i = List.length pre ->
  match esc with
  | None => clean test pre = true
  | Some e => e = escape_spec test pre
  end ->
  match escape_loop test ctrl i rest esc with
  | None => clean test ctrl = true
  | Some e => e = escape_spec test ctrl
  end.
Proof.
  induction rest as [|ch rest IH]; intros pre ctrl i esc Hctrl Hi Hinv.
  - rewrite app_nil_r in Hctrl. subst ctrl. exact Hinv.
  - assert (Hsplit : ctrl = (pre ++ [ch]) ++ rest)
      by (rewrite <- app_assoc; exact Hctrl).
    assert (Hlen : S i = List.length (pre ++ [ch]))
      by (rewrite length_app; simpl; lia).
    cbn [escape_loop].
    destruct (test ch) eqn:Ht.
    + pose proof (escape_branch
        (match esc with None => firstn i ctrl | Some e => e end) ch Ht) as Hb.
      cbv zeta in Hb. rewrite Hb. clear Hb.
      apply (IH (pre ++ [ch])); [exact Hsplit | exact Hlen |].
      rewrite escape_spec_app. simpl. rewrite app_nil_r.
      f_equal.
      destruct esc as [e|].
      * exact Hinv.
      * rewrite Hctrl, Hi.
        rewrite firstn_app, Nat.sub_diag, firstn_all. simpl. rewrite app_nil_r.
        symmetry. apply escape_spec_clean. exact Hinv.
    + apply (IH (pre ++ [ch])); [exact Hsplit | exact Hlen |].
      destruct esc as [e|].
      * rewrite escape_spec_app. simpl. unfold escape_byte. rewrite Ht.
        rewrite Hinv. reflexivity.
      * rewrite clean_app, Hinv. simpl. rewrite Ht. reflexivity.
Qed.

Lemma escape_with_spec (b : list byte) : escape_with test b = escape_spec test b.
Proof.
  unfold escape_with.
  pose proof (escape_loop_inv b [] b 0 None eq_refl eq_refl eq_refl) as H.
  destruct (escape_loop test b 0 b None) as [e|].
  - exact H.
  - symmetry. apply escape_spec_clean. exact H.
Qed.

Lemma escape_loop_clean (b : list byte) :
  clean test b = true -> escape_loop test b 0 b None = None.
Proof.
  intros Hc.
  assert (G : forall rest pre,
    clean test rest = true ->
    escape_loop test (pre ++ rest) (List.length pre) rest None = None).
  { induction rest as [|ch rest IH]; intros pre Hr; [reflexivity|].
    simpl in Hr. apply andb_prop in Hr. destruct Hr as [Hch Hr].
    cbn [escape_loop]. destruct (test ch); [discriminate|].
    replace (pre ++ ch :: rest) with ((pre ++ [ch]) ++ rest)
      by (rewrite <- app_assoc; reflexivity).
    replace (S (List.length pre)) with (List.length (pre ++ [ch]))
      by (rewrite length_app; simpl; lia).
    apply IH. exact Hr. }
  exact (G b [] Hc).
Qed.

(** When what one byte becomes is clean, so is the whole output. *)
Lemma escape_spec_is_clean (b : list byte) :
  (forall ch, clean test (escape_byte test ch) = true) ->
  clean test (escape_spec test b) = true.
Proof.
  intros Hb. induction b as [|ch b IH]; [reflexivity|].
  simpl. rewrite clean_app, Hb, IH. reflexivity.
Qed.

End EscaperFacts.

Section EscapeJSONStringFacts.

Import Escaper.
Local Open Scope list_scope.

Lemma json_ctrl_iff (ch : byte) :
  json_ctrl ch = true <-> (Byte.to_N ch <= 31 \/ Byte.to_N ch = 34)%N.
Proof.
  unfold json_ctrl. rewrite orb_true_iff, N.leb_le, N.eqb_eq. reflexivity.
Qed.

Lemma escape_byte_json_ctrl_clean (ch : byte) :
  clean json_ctrl (escape_byte json_ctrl ch) = true.
Proof. destruct ch; reflexivity. Qed.

Lemma escape_byte_ctrl_only_clean (ch : byte) :
  clean ctrl_only (escape_byte ctrl_only ch) = true.
Proof. destruct ch; reflexivity. Qed.

Lemma escape_byte_u00XX (ch : byte) :
  json_ctrl ch = true -> is_u00XX_of (escape_byte json_ctrl ch) ch = true.
Proof. destruct ch; intros H; try discriminate H; reflexivity. Qed.

Lemma EscapeJSONString_escape_spec (b : list byte) :
  EscapeJSONString b = escape_spec json_ctrl b.
Proof. exact (escape_with_spec json_ctrl b). Qed.

Lemma EscapeJSONString_clean (b : list byte) :
  clean json_ctrl (EscapeJSONString b) = true.
Proof.
  rewrite EscapeJSONString_escape_spec.
  apply escape_spec_is_clean, escape_byte_json_ctrl_clean.
Qed.

Lemma escape_spec_nil (test : byte -> bool) (b : list byte) :
  escape_spec test b = [] -> b = [].
Proof.
  destruct b as [|ch b]; [reflexivity|].
  simpl. unfold escape_byte. destruct (test ch); discriminate.
Qed.

Lemma escape_text_empty (s : string) : escape_text s = "" -> s = "".
Proof.
  unfold escape_text. intros H.
  apply (f_equal list_byte_of_string) in H.
  rewrite list_byte_of_string_of_list_byte in H. simpl in H.
  rewrite EscapeJSONString_escape_spec in H.
  apply escape_spec_nil in H.
  apply (f_equal string_of_list_byte) in H.
  rewrite string_of_list_byte_of_string in H. exact H.
Qed.

Lemma escape_text_idem (s : string) : escape_text (escape_text s) = escape_text s.
Proof.
  unfold escape_text. rewrite list_byte_of_string_of_list_byte.
  f_equal.
  rewrite (EscapeJSONString_escape_spec (EscapeJSONString _)).
  apply escape_spec_clean. apply EscapeJSONString_clean.
Qed.

(** C5. For every byte sequence [b], [EscapeJSONString b] is [b] with each
    byte of value at most 31 and each double-quote byte (34) replaced by the
    six characters [\u00XX], [XX] being the two hexadecimal digits of the
    byte, and every other byte kept, in order; and when [b] has no such byte
    the loop never allocates and the routine returns [b] itself. *)
Theorem EscapeJSONString_correct (b : list byte) :
  EscapeJSONString b = flat_map (escape_byte json_ctrl) b
  /\ (forall ch, json_ctrl ch = true <-> (Byte.to_N ch <= 31 \/ Byte.to_N ch = 34)%N)
  /\ (forall ch, json_ctrl ch = true ->
        is_u00XX_of (escape_byte json_ctrl ch) ch = true)
  /\ (forall ch, json_ctrl ch = false -> escape_byte json_ctrl ch = [ch])
  /\ (clean json_ctrl b = true ->
        escape_loop json_ctrl b 0 b None = None /\ EscapeJSONString b = b).
Proof.
  split; [exact (EscapeJSONString_escape_spec b)|].
  split; [exact json_ctrl_iff|].
  split; [exact escape_byte_u00XX|].
  split.
  - intros ch H. unfold escape_byte. rewrite H. reflexivity.
  - intros Hc. split.
    + apply escape_loop_clean. exact Hc.
    + rewrite EscapeJSONString_escape_spec. apply escape_spec_clean. exact Hc.
Qed.

(** C10. The escaping routine is idempotent: the output of one pass has no
    byte of value at most 31 and no double-quote byte, so a second pass
    returns it unchanged.  The same holds of the earlier [EscapeCtrl], whose
    test is [ch <= 31] alone. *)
Theorem EscapeJSONString_idempotent (b : list byte) :
  clean json_ctrl (EscapeJSONString b) = true
  /\ escape_loop json_ctrl (EscapeJSONString b) 0 (EscapeJSONString b) None = None
  /\ EscapeJSONString (EscapeJSONString b) = EscapeJSONString b
  /\ EscapeCtrl (EscapeCtrl b) = EscapeCtrl b.
Proof.
  pose proof (EscapeJSONString_clean b) as Hc.
  split; [exact Hc|].
  split; [apply escape_loop_clean; exact Hc|].
  split.
  - rewrite (EscapeJSONString_escape_spec (EscapeJSONString b)).
    apply escape_spec_clean. exact Hc.
  - change (escape_with ctrl_only (escape_with ctrl_only b) = escape_with ctrl_only b).
    rewrite (escape_with_spec ctrl_only (escape_with ctrl_only b)).
    apply escape_spec_clean.
    rewrite escape_with_spec.
    apply escape_spec_is_clean, escape_byte_ctrl_only_clean.
Qed.

End EscapeJSONStringFacts.

(** ** More on the escaping routine *)

Section EscaperAlgebra.

Import Escaper.
Local Open Scope list_scope.

Lemma EscapeCtrl_escape_spec (b : list byte) :
  EscapeCtrl b = escape_spec ctrl_only b.
Proof. exact (escape_with_spec ctrl_only b). Qed.

Lemma escape_byte_length (test : byte -> bool) (ch : byte) :
  List.length (escape_byte test ch) = if test ch then 6 else 1.
Proof. unfold escape_byte. destruct (test ch); reflexivity. Qed.

Lemma escape_spec_length (test : byte -> bool) (b : list byte) :
  List.length (escape_spec test b) = List.length b + 5 * escaped_count test b.
Proof.
  unfold escaped_count.
  induction b as [|ch b IH]; [reflexivity|].
  change (escape_spec test (ch :: b)) with (escape_byte test ch ++ escape_spec test b).
  rewrite length_app, escape_byte_length, IH. simpl.
  destruct (test ch); simpl; lia.
Qed.

(** X1. Escaping a concatenation is concatenating the escaped parts, for
    [EscapeJSONString] and for [EscapeCtrl]: a text may be escaped piece by
    piece. *)
Theorem EscapeJSONString_app (a b : list byte) :
  EscapeJSONString (a ++ b) = EscapeJSONString a ++ EscapeJSONString b
  /\ EscapeCtrl (a ++ b) = EscapeCtrl a ++ EscapeCtrl b.
Proof.
  split.
  - rewrite !EscapeJSONString_escape_spec. apply escape_spec_app.
  - rewrite !EscapeCtrl_escape_spec. apply escape_spec_app.
Qed.

(** X2. The output of [EscapeJSONString] is five bytes longer than its input
    for each byte it escapes: never shorter than the input, and at most six
    times as long. *)
Theorem EscapeJSONString_length (b : list byte) :
  List.length (EscapeJSONString b) = List.length b + 5 * escaped_count json_ctrl b
  /\ List.length b <= List.length (EscapeJSONString b)
  /\ List.length (EscapeJSONString b) <= 6 * List.length b.
Proof.
  rewrite EscapeJSONString_escape_spec, escape_spec_length.
  pose proof (filter_length_le json_ctrl b) as H. unfold escaped_count.
  repeat split; lia.
Qed.

(** X3. The routine leaves the backslash alone, so it cannot be undone in
    general: a byte it escapes and the six characters it writes for that byte
    give the same output, in any context, though the two inputs differ. *)
Theorem EscapeJSONString_collision (p s : list byte) (ch : byte) :
  json_ctrl ch = true ->
  EscapeJSONString (p ++ ch :: s)
    = EscapeJSONString (p ++ escape_byte json_ctrl ch ++ s)
  /\ p ++ ch :: s <> p ++ escape_byte json_ctrl ch ++ s.
Proof.
  intros Hc. split.
  - rewrite !EscapeJSONString_escape_spec, !escape_spec_app.
    f_equal. f_equal.
    change (escape_spec json_ctrl (ch :: s))
      with (escape_byte json_ctrl ch ++ escape_spec json_ctrl s).
    f_equal. symmetry. apply escape_spec_clean, escape_byte_json_ctrl_clean.
  - intros E. apply (f_equal (@List.length byte)) in E.
    rewrite !length_app in E. cbn [List.length] in E.
    rewrite escape_byte_length, Hc in E. lia.
Qed.

Lemma two_hex_decode (ch : byte) :
  match two_hex ch with
  | [h; l] =>
      match hex_value h, hex_value l with
      | Some hv, Some lv => (16 * hv + lv)%N = Byte.to_N ch
      | _, _ => False
      end
  | _ => False
  end.
Proof. destruct ch; reflexivity. Qed.

Lemma two_hex_inj (x y : byte) : two_hex x = two_hex y -> x = y.
Proof.
  intros E.
  pose proof (two_hex_decode x) as Hx. pose proof (two_hex_decode y) as Hy.
  rewrite E in Hx.
  destruct (two_hex y) as [|h [|l [|]]]; try contradiction.
  destruct (hex_value h), (hex_value l); try contradiction.
  assert (Hn : Byte.to_N x = Byte.to_N y) by congruence.
  apply (f_equal Byte.of_N) in Hn. rewrite !Byte.of_to_N in Hn.
  congruence.
Qed.

Lemma json_ctrl_backslash : json_ctrl x5c = false.
Proof. reflexivity. Qed.

(** X4. On inputs without a backslash the routine loses nothing: two such
    inputs with the same output are the same input. *)
Theorem EscapeJSONString_injective (a b : list byte) :
  no_backslash a = true ->
  no_backslash b = true ->
  EscapeJSONString a = EscapeJSONString b ->
  a = b.
Proof.
  rewrite !EscapeJSONString_escape_spec. unfold no_backslash.
  revert b. induction a as [|x a IH]; intros [|y b] Ha Hb E.
  - reflexivity.
  - exfalso. simpl in E. unfold escape_byte in E.
    destruct (json_ctrl y); discriminate E.
  - exfalso. simpl in E. unfold escape_byte in E.
    destruct (json_ctrl x); discriminate E.
  - simpl in Ha, Hb.
    apply andb_prop in Ha. destruct Ha as [Hx Ha].
    apply andb_prop in Hb. destruct Hb as [Hy Hb].
    change (escape_byte json_ctrl x ++ escape_spec json_ctrl a
            = escape_byte json_ctrl y ++ escape_spec json_ctrl b) in E.
    unfold escape_byte in E.
    destruct (json_ctrl x) eqn:Cx, (json_ctrl y) eqn:Cy.
    + pose proof (two_hex_decode x) as Dx. pose proof (two_hex_decode y) as Dy.
      destruct (two_hex x) as [|hx [|lx [|]]] eqn:Tx; try contradiction.
      destruct (two_hex y) as [|hy [|ly [|]]] eqn:Ty; try contradiction.
      simpl in E. injection E as Eh El Et.
      assert (Exy : x = y).
      { apply two_hex_inj. rewrite Tx, Ty, Eh, El. reflexivity. }
      rewrite Exy. f_equal. apply IH; assumption.
    + exfalso. simpl in E. injection E as Ey _.
      rewrite <- Ey in Hy. discriminate Hy.
    + exfalso. simpl in E. injection E as Ex _.
      rewrite Ex in Hx. discriminate Hx.
    + simpl in E. injection E as Exy Et.
      rewrite Exy. f_equal. apply IH; assumption.
Qed.

Lemma escape_after_ctrl (ch : byte) :
  escape_spec json_ctrl (escape_byte ctrl_only ch) = escape_byte json_ctrl ch.
Proof. destruct ch; reflexivity. Qed.

(** X5. [EscapeJSONString] takes over from the earlier [EscapeCtrl]: applied
    to the output of [EscapeCtrl] it gives what it gives on the input,
    [EscapeCtrl] leaves the output of [EscapeJSONString] as it is, and the two
    agree on every input that holds no double quote. *)
Theorem EscapeJSONString_after_EscapeCtrl (b : list byte) :
  EscapeJSONString (EscapeCtrl b) = EscapeJSONString b
  /\ EscapeCtrl (EscapeJSONString b) = EscapeJSONString b
  /\ (no_quote b = true -> EscapeCtrl b = EscapeJSONString b).
Proof.
  rewrite !EscapeJSONString_escape_spec, !EscapeCtrl_escape_spec.
  split; [|split].
  - induction b as [|ch b IH]; [reflexivity|].
    change (escape_spec ctrl_only (ch :: b))
      with (escape_byte ctrl_only ch ++ escape_spec ctrl_only b).
    rewrite escape_spec_app, IH, escape_after_ctrl. reflexivity.
  - apply escape_spec_clean.
    induction b as [|ch b IH]; [reflexivity|].
    change (escape_spec json_ctrl (ch :: b))
      with (escape_byte json_ctrl ch ++ escape_spec json_ctrl b).
    rewrite clean_app, IH, andb_true_r.
    destruct ch; reflexivity.
  - unfold no_quote. induction b as [|ch b IH]; [reflexivity|].
    simpl. intros H. apply andb_prop in H. destruct H as [Hq Hb].
    rewrite (IH Hb). f_equal.
    unfold escape_byte, json_ctrl, ctrl_only.
    apply negb_true_iff in Hq. rewrite Hq, orb_false_r. reflexivity.
Qed.

End EscaperAlgebra.


(** ** The accumulators *)

Lemma eqb_empty_false (s : string) : s <> "" -> (s =? "") = false.
Proof. intros H. apply String.eqb_neq. exact H. Qed.

Lemma SetStoredNonFatalWarning_latched (g : Globals) (msg : Msg)
    (defCode : option (list Z)) (d : Z) :
  defaultCode_of defCode = Some d ->
  Message (storedNonFatalWarning g) <> "" ->
  SetStoredNonFatalWarning g msg defCode =
    Some (mkGlobals (jsonIndentLevel g) (jsonPrefix g) (jsonRaw g)
            (storedFatalError g) (merged (storedNonFatalWarning g) msg d)
            (storedNote g)).
Proof.
  intros Hd Hne. unfold SetStoredNonFatalWarning. rewrite Hd.
  rewrite (eqb_empty_false _ Hne). cbn [negb].
  unfold merged, merged_code, with_Message, with_Code. cbn [Code Message Level].
  destruct ((Code msg =? 0)%Z || (Code msg =? d)%Z);
    destruct ((Code (storedNonFatalWarning g) =? 0)%Z
              || (Code (storedNonFatalWarning g) =? d)%Z);
    reflexivity.
Qed.

Lemma SetStoredNote_latched (g : Globals) (msg : Msg)
    (defCode : option (list Z)) (d : Z) :
  defaultCode_of defCode = Some d ->
  Message (storedNote g) <> "" ->
  SetStoredNote g msg defCode =
    Some (mkGlobals (jsonIndentLevel g) (jsonPrefix g) (jsonRaw g)
            (storedFatalError g) (storedNonFatalWarning g)
            (merged (storedNote g) msg d)).
Proof.
  intros Hd Hne. unfold SetStoredNote. rewrite Hd.
  rewrite (eqb_empty_false _ Hne). cbn [negb].
  unfold merged, merged_code, with_Message, with_Code. cbn [Code Message Level].
  destruct ((Code msg =? 0)%Z || (Code msg =? d)%Z);
    destruct ((Code (storedNote g) =? 0)%Z || (Code (storedNote g) =? d)%Z);
    reflexivity.
Qed.

(** On an empty accumulator the additive setters store the message as it is. *)
Lemma SetStoredNonFatalWarning_first (g : Globals) (msg : Msg)
    (defCode : option (list Z)) (d : Z) :
  defaultCode_of defCode = Some d ->
  Message (storedNonFatalWarning g) = "" ->
  SetStoredNonFatalWarning g msg defCode =
    Some (mkGlobals (jsonIndentLevel g) (jsonPrefix g) (jsonRaw g)
            (storedFatalError g) msg (storedNote g)).
Proof.
  intros Hd He. unfold SetStoredNonFatalWarning. rewrite Hd, He. reflexivity.
Qed.

Lemma SetStoredNote_first (g : Globals) (msg : Msg)
    (defCode : option (list Z)) (d : Z) :
  defaultCode_of defCode = Some d ->
  Message (storedNote g) = "" ->
  SetStoredNote g msg defCode =
    Some (mkGlobals (jsonIndentLevel g) (jsonPrefix g) (jsonRaw g)
            (storedFatalError g) (storedNonFatalWarning g) msg).
Proof.
  intros Hd He. unfold SetStoredNote. rewrite Hd, He. reflexivity.
Qed.

(** C6. Latching a message [new] with [SetStoredNonFatalWarning] (or
    [SetStoredNote]) over a stored message of non-empty text stores the text
    of [new] immediately followed by the stored text, with the level of [new],
    and with the stored code when the code of [new] is 0 or the default while
    the stored code is neither, the code of [new] otherwise; so two messages
    [first] and [new] latched in sequence on an empty accumulator, with the
    same default code, leave the text of [new] followed by that of [first]. *)
Theorem additive_latch (g : Globals) (first new : Msg)
    (defCode : option (list Z)) (d : Z) :
  defaultCode_of defCode = Some d ->
  (Message (storedNonFatalWarning g) <> "" ->
     exists g', SetStoredNonFatalWarning g new defCode = Some g'
       /\ Message (storedNonFatalWarning g')
            = Message new ++ Message (storedNonFatalWarning g)
       /\ Code (storedNonFatalWarning g')
            = merged_code (storedNonFatalWarning g) new d
       /\ Level (storedNonFatalWarning g') = Level new)
  /\ (Message (storedNote g) <> "" ->
     exists g', SetStoredNote g new defCode = Some g'
       /\ Message (storedNote g') = Message new ++ Message (storedNote g)
       /\ Code (storedNote g') = merged_code (storedNote g) new d
       /\ Level (storedNote g') = Level new)
  /\ (Message (storedNonFatalWarning g) = "" -> Message first <> "" ->
     exists g1 g2, SetStoredNonFatalWarning g first defCode = Some g1
       /\ SetStoredNonFatalWarning g1 new defCode = Some g2
       /\ Message (storedNonFatalWarning g2) = Message new ++ Message first
       /\ Code (storedNonFatalWarning g2) = merged_code first new d)
  /\ (Message (storedNote g) = "" -> Message first <> "" ->
     exists g1 g2, SetStoredNote g first defCode = Some g1
       /\ SetStoredNote g1 new defCode = Some g2
       /\ Message (storedNote g2) = Message new ++ Message first
       /\ Code (storedNote g2) = merged_code first new d).
Proof.
  intros Hd. repeat split.
  - intros Hne. eexists. split.
    + apply (SetStoredNonFatalWarning_latched g new defCode d Hd Hne).
    + repeat split.
  - intros Hne. eexists. split.
    + apply (SetStoredNote_latched g new defCode d Hd Hne).
    + repeat split.
  - intros He Hf. eexists. eexists. split.
    + apply (SetStoredNonFatalWarning_first g first defCode d Hd He).
    + split.
      * apply (SetStoredNonFatalWarning_latched _ new defCode d Hd). exact Hf.
      * split; reflexivity.
  - intros He Hf. eexists. eexists. split.
    + apply (SetStoredNote_first g first defCode d Hd He).
    + split.
      * apply (SetStoredNote_latched _ new defCode d Hd). exact Hf.
      * split; reflexivity.
Qed.

(** ** The result root *)

(** C9. [SetAPIItems] sets the data section's [TotalItems] and
    [CurrentItemCount] to [len(items)] and its [StartIndex] to 1, replaces the
    data section whatever the root held before, and leaves the root's id,
    version, context, error, warning and note as they were. *)
Theorem SetAPIItems_spec (r : apiData) (kind verbosity : string)
    (fields : list string) (items : list Item) :
  let r' := SetAPIItems r kind verbosity fields items in
  let n := Z.of_nat (List.length items) in
  Data r' = Some (mkJsonData kind verbosity fields n 1 n items)
  /\ (forall d, Data (SetAPIItems
                        (mkApiData (APIVersion r) (Context r) (ID r) (Note r)
                           (Warning r) (Error r) d)
                        kind verbosity fields items) = Data r')
  /\ ID r' = ID r
  /\ APIVersion r' = APIVersion r
  /\ Context r' = Context r
  /\ Error r' = Error r
  /\ Warning r' = Warning r
  /\ Note r' = Note r.
Proof. cbv zeta. repeat split. Qed.

(** ** The formatter *)

(** C8. With raw mode on, [PrettyJSON] returns the input bytes as text,
    unchanged, and no error, whatever the indent level, the prefix and the
    optional arguments of the call. *)
Theorem PrettyJSON_raw (g : Globals) (b : list byte) (fmt : list string) :
  jsonRaw g = true ->
  PrettyJSON g b fmt = (string_of_list_byte b, None)
  /\ list_byte_of_string (fst (PrettyJSON g b fmt)) = b
  /\ (forall level pfx,
        PrettyJSON (SetJSONPrefix (SetJSONIndentLevel g level) pfx) b fmt
        = (string_of_list_byte b, None)).
Proof.
  intros Hraw. unfold PrettyJSON, SetJSONPrefix, SetJSONIndentLevel.
  cbn [jsonRaw]. rewrite Hraw. cbn [fst]. unfold cast_ToString.
  rewrite list_byte_of_string_of_list_byte. repeat split.
Qed.

(** ** The root record of the output builder *)

Lemma adopted_nonempty (m : Msg) : Message m <> "" -> Message (adopted m) <> "".
Proof. intros H E. apply H. apply escape_text_empty. exact E. Qed.

(** [GetJSONOutput_root] in closed form: the local variables at the first
    encoding. *)
Lemma GetJSONOutput_root_eq (g : Globals) (apiVer context kind verbosity : string)
    (fields : list string) (items : list Item) :
  GetJSONOutput_root g apiVer context kind verbosity fields items =
    let errMsg := active_error g apiVer in
    let warnMsg := carried (storedNonFatalWarning g) in
    let noteMsg := carried (storedNote g) in
    let apiRoot := newAPIData (resolved_version apiVer) context in
    mkLocals (resolved_version apiVer) errMsg warnMsg
      (version_missing apiVer || negb (Message (storedFatalError g) =? ""))
      (if Message errMsg =? "" then
         let apiRoot := SetAPIItems apiRoot kind verbosity fields items in
         let apiRoot :=
           if negb (Message warnMsg =? "") then set_Warning apiRoot warnMsg
           else apiRoot in
         if negb (Message noteMsg =? "") then set_Note apiRoot noteMsg else apiRoot
       else set_Error (set_ID apiRoot (-1)) errMsg).
Proof.
  unfold GetJSONOutput_root, active_error, carried, version_missing,
    resolved_version, no_version_error.
  destruct (apiVer =? "");
    [destruct (os_Getenv "PKG_API_APIVER" =? "")|];
    destruct (Message (storedFatalError g) =? "");
    destruct (Message (storedNonFatalWarning g) =? "");
    destruct (Message (storedNote g) =? "");
    reflexivity.
Qed.

Lemma active_error_empty (g : Globals) (apiVer : string) :
  (Message (active_error g apiVer) =? "") =
    negb (version_missing apiVer || negb (Message (storedFatalError g) =? "")).
Proof.
  unfold active_error.
  destruct (version_missing apiVer); [reflexivity|].
  destruct (Message (storedFatalError g) =? "") eqn:E; [reflexivity|].
  cbn [orb negb]. apply eqb_empty_false, adopted_nonempty.
  apply String.eqb_neq. exact E.
Qed.

(** The root handed to the first encoding, by the flag [fatalErr]. *)
Lemma GetJSONOutput_root_fatal (g : Globals) (apiVer context kind verbosity : string)
    (fields : list string) (items : list Item) :
  let l := GetJSONOutput_root g apiVer context kind verbosity fields items in
  l_fatalErr l = true ->
  Message (l_errMsg l) <> ""
  /\ l_apiRoot l =
       mkApiData (resolved_version apiVer) context (-1) None None
         (Some (l_errMsg l)) None.
Proof.
  cbv zeta. rewrite GetJSONOutput_root_eq. cbv zeta. cbn [l_fatalErr l_errMsg l_apiRoot].
  intros Hf. rewrite active_error_empty, Hf. cbn [negb].
  split; [|reflexivity].
  apply String.eqb_neq. rewrite active_error_empty, Hf. reflexivity.
Qed.

Lemma GetJSONOutput_root_clear (g : Globals) (apiVer context kind verbosity : string)
    (fields : list string) (items : list Item) :
  let l := GetJSONOutput_root g apiVer context kind verbosity fields items in
  l_fatalErr l = false ->
  Message (l_errMsg l) = ""
  /\ ID (l_apiRoot l) = 0%Z
  /\ Error (l_apiRoot l) = None
  /\ Data (l_apiRoot l) =
       Some (mkJsonData kind verbosity fields (Z.of_nat (List.length items)) 1
               (Z.of_nat (List.length items)) items).
Proof.
  cbv zeta. rewrite GetJSONOutput_root_eq. cbv zeta. cbn [l_fatalErr l_errMsg l_apiRoot].
  intros Hf. rewrite active_error_empty, Hf. cbn [negb].
  split.
  - apply String.eqb_eq. rewrite active_error_empty, Hf. reflexivity.
  - destruct (negb (Message (carried (storedNonFatalWarning g)) =? ""));
      destruct (negb (Message (carried (storedNote g)) =? ""));
      repeat split.
Qed.

(** C2. In the root record [GetJSONOutput] builds for encoding, the id is -1
    exactly when the error field is present, and an error that is present has
    a non-empty text: the error branch sets the id to -1 and attaches the
    error, every other path leaves the id at 0 with no error.  The warning
    added before a second encoding changes neither field. *)
Theorem root_id_error_invariant (g : Globals) (apiVer context kind verbosity : string)
    (fields : list string) (items : list Item) :
  let r := l_apiRoot (GetJSONOutput_root g apiVer context kind verbosity fields items) in
  (ID r = (-1)%Z <-> exists m, Error r = Some m /\ Message m <> "")
  /\ (ID r = (-1)%Z <-> Error r <> None)
  /\ (Error r = None -> ID r = 0%Z)
  /\ (forall w, ID (set_Warning r w) = ID r /\ Error (set_Warning r w) = Error r).
Proof.
  cbv zeta.
  destruct (l_fatalErr (GetJSONOutput_root g apiVer context kind verbosity fields items))
    eqn:Hf.
  - destruct (GetJSONOutput_root_fatal g apiVer context kind verbosity fields items Hf)
      as [Hne Hr].
    rewrite Hr. cbn [ID Error set_Warning].
    split; [|split; [|split]].
    + split; [|reflexivity].
      intros _. eexists. split; [reflexivity | exact Hne].
    + split; [discriminate | reflexivity].
    + discriminate.
    + intros w. split; reflexivity.
  - destruct (GetJSONOutput_root_clear g apiVer context kind verbosity fields items Hf)
      as [_ [Hid [He _]]].
    split; [|split; [|split]].
    + rewrite Hid, He. split; [discriminate|].
      intros [m [Hm _]]. discriminate Hm.
    + rewrite Hid, He. split; [discriminate|].
      intros H. exfalso. apply H. reflexivity.
    + intros _. exact Hid.
    + intros w. split; reflexivity.
Qed.

(** ** The fallback builder *)

Lemma append_assoc (a b c : string) : (a ++ b) ++ c = a ++ b ++ c.
Proof. induction a as [|x a IH]; simpl; [reflexivity|]. rewrite IH. reflexivity. Qed.

Lemma encodeMsgInRawJSON_empty (flavor : string) (m : Msg) :
  (encodeMsgInRawJSON flavor m =? "") = (Message m =? "").
Proof.
  unfold encodeMsgInRawJSON. destruct (Message m =? ""); reflexivity.
Qed.

Lemma encodeMsgInRawJSON_fragment (flavor : string) (m : Msg) :
  (Message m =? "") = false -> encodeMsgInRawJSON flavor m = msg_fragment flavor m.
Proof. intros H. unfold encodeMsgInRawJSON. rewrite H. reflexivity. Qed.

Lemma FatalJSONMsg_raw_fragment (g : Globals) (apiVer : string) (errMsg : Msg) :
  FatalJSONMsg_raw g apiVer errMsg = fallback_fragment g apiVer (effective_error g errMsg).
Proof.
  unfold FatalJSONMsg_raw, fallback_fragment, effective_error, optional_fragment, NewMsg.
  cbv zeta. rewrite !encodeMsgInRawJSON_empty.
  assert (Herr :
    (if Message errMsg =? "" then
       if Message (storedFatalError g) =? "" then
         encodeMsgInRawJSON "error" (mkMsg "Unknown Fatal Error (Coding Error?)" 0 "UNKNOWN")
       else encodeMsgInRawJSON "error" (storedFatalError g)
     else encodeMsgInRawJSON "error" errMsg)
    = msg_fragment "error"
        (if negb (Message errMsg =? "") then errMsg
         else if negb (Message (storedFatalError g) =? "") then storedFatalError g
         else mkMsg "Unknown Fatal Error (Coding Error?)" 0 "UNKNOWN")).
  { destruct (Message errMsg =? "") eqn:E1; cbn [negb].
    - destruct (Message (storedFatalError g) =? "") eqn:E2; cbn [negb].
      + reflexivity.
      + apply encodeMsgInRawJSON_fragment. exact E2.
    - apply encodeMsgInRawJSON_fragment. exact E1. }
  rewrite Herr. clear Herr.
  destruct (Message (storedNote g) =? "") eqn:En;
    destruct (Message (storedNonFatalWarning g) =? "") eqn:Ew; cbn [negb];
    rewrite ?(encodeMsgInRawJSON_fragment "note" _ En),
            ?(encodeMsgInRawJSON_fragment "warning" _ Ew);
    rewrite ?append_assoc; reflexivity.
Qed.

(** C7, as the code has it. For every version and every message,
    [FatalJSONMsg] returns a text, without failing: the fragment
    [{ "apiVersion":"<version>", "id": -1, <note>, <warning>, "error":
    { "message": "<escaped>", "code": <n>, "level": "<level>"} }] run through
    the formatter, or that fragment as it is when the formatter fails.  The
    note and warning fragments are there when latched; the text in the error
    fragment is escaped by the escaping routine; the error is the message
    given when its text is not empty, and otherwise the latched fatal error
    or, with none latched, the message [Unknown Fatal Error (Coding Error?)]
    with code 0 and level [UNKNOWN]. *)
Theorem FatalJSONMsg_fragment (g : Globals) (apiVer : string) (errMsg : Msg) :
  let raw := fallback_fragment g apiVer (effective_error g errMsg) in
  (exists out, FatalJSONMsg g apiVer errMsg = out)
  /\ (forall out, PrettyJSON g (list_byte_of_string raw) [] = (out, None) ->
        FatalJSONMsg g apiVer errMsg = out)
  /\ (forall out err, PrettyJSON g (list_byte_of_string raw) [] = (out, Some err) ->
        FatalJSONMsg g apiVer errMsg = raw)
  /\ (Message errMsg <> "" -> effective_error g errMsg = errMsg)
  /\ (Message errMsg = "" -> Message (storedFatalError g) <> "" ->
        effective_error g errMsg = storedFatalError g)
  /\ (Message errMsg = "" -> Message (storedFatalError g) = "" ->
        effective_error g errMsg = mkMsg "Unknown Fatal Error (Coding Error?)" 0 "UNKNOWN").
Proof.
  cbv zeta. unfold FatalJSONMsg. rewrite FatalJSONMsg_raw_fragment.
  split; [eexists; reflexivity|].
  split; [intros out H; rewrite H; reflexivity|].
  split; [intros out err H; rewrite H; reflexivity|].
  unfold effective_error.
  split; [intros H; rewrite (eqb_empty_false _ H); reflexivity|].
  split.
  - intros H1 H2. rewrite H1, (eqb_empty_false _ H2). reflexivity.
  - intros H1 H2. rewrite H1, H2. reflexivity.
Qed.

(** ** The output builder *)

Lemma GetJSONOutput_emit_emitted (g : Globals) (l : Locals) :
  emitted g l (fst (GetJSONOutput_emit g l)).
Proof.
  unfold emitted, GetJSONOutput_emit. cbv zeta.
  destruct (json_Marshal (l_apiRoot l)) as [j|e] eqn:M1.
  - destruct (PrettyJSON g j []) as [o [err|]] eqn:P1.
    + destruct (json_Marshal (set_Warning (l_apiRoot l) (beautify_warning (l_warnMsg l) err)))
        as [j2|e2] eqn:M2.
      * right. left. exists j, err, j2.
        rewrite P1, M2. repeat split.
        destruct (PrettyJSON g j2 []) as [o2 [err2|]] eqn:P2; cbn [fst snd].
        -- right. split; [discriminate | reflexivity].
        -- left. reflexivity.
      * right. right. right. exists j, err, e2.
        rewrite P1, M2. repeat split.
    + left. exists j. split; [reflexivity | exact P1].
  - right. right. left. exists e. split; [reflexivity|].
    unfold marshal_error, with_Message, with_Code, with_Level.
    destruct (Message (l_errMsg l) =? ""); reflexivity.
Qed.

(** The flag [GetJSONOutput] returns, path by path. *)
Lemma GetJSONOutput_emit_flag (g : Globals) (l : Locals) :
  (Message (l_errMsg l) =? "") = negb (l_fatalErr l) ->
  snd (GetJSONOutput_emit g l) =
    match json_Marshal (l_apiRoot l) with
    | inr _ => true
    | inl j =>
        match snd (PrettyJSON g j []) with
        | None => l_fatalErr l
        | Some err =>
            match json_Marshal
                    (set_Warning (l_apiRoot l) (beautify_warning (l_warnMsg l) err)) with
            | inr _ => true
            | inl _ => l_fatalErr l
            end
        end
    end.
Proof.
  intros Hf. unfold GetJSONOutput_emit. cbv zeta.
  destruct (json_Marshal (l_apiRoot l)) as [j|e].
  - destruct (PrettyJSON g j []) as [o [err|]]; cbn [snd]; [|reflexivity].
    destruct (json_Marshal (set_Warning (l_apiRoot l) (beautify_warning (l_warnMsg l) err)))
      as [j2|e2]; [|reflexivity].
    destruct (PrettyJSON g j2 []) as [o2 [err2|]]; reflexivity.
  - rewrite Hf. destruct (l_fatalErr l); reflexivity.
Qed.

Lemma GetJSONOutput_root_flag (g : Globals) (apiVer context kind verbosity : string)
    (fields : list string) (items : list Item) :
  let l := GetJSONOutput_root g apiVer context kind verbosity fields items in
  (Message (l_errMsg l) =? "") = negb (l_fatalErr l)
  /\ l_fatalErr l = version_missing apiVer || negb (Message (storedFatalError g) =? "")
  /\ (l_fatalErr l = true <-> Error (l_apiRoot l) <> None).
Proof.
  cbv zeta.
  assert (H1 : (Message (l_errMsg (GetJSONOutput_root g apiVer context kind verbosity
                  fields items)) =? "")
               = negb (l_fatalErr (GetJSONOutput_root g apiVer context kind verbosity
                  fields items))).
  { rewrite GetJSONOutput_root_eq. cbv zeta. cbn [l_errMsg l_fatalErr].
    apply active_error_empty. }
  split; [exact H1|].
  split; [rewrite GetJSONOutput_root_eq; reflexivity|].
  destruct (l_fatalErr (GetJSONOutput_root g apiVer context kind verbosity fields items))
    eqn:Hf.
  - destruct (GetJSONOutput_root_fatal g apiVer context kind verbosity fields items Hf)
      as [_ Hr].
    rewrite Hr. cbn [Error]. split; [discriminate | reflexivity].
  - destruct (GetJSONOutput_root_clear g apiVer context kind verbosity fields items Hf)
      as [_ [_ [He _]]].
    rewrite He. split; [discriminate|]. intros H. exfalso. apply H. reflexivity.
Qed.

(** Once an error is active, the flag returned is [true] on every path. *)
Lemma GetJSONOutput_flag_fatal (g : Globals) (apiVer context kind verbosity : string)
    (fields : list string) (items : list Item) :
  l_fatalErr (GetJSONOutput_root g apiVer context kind verbosity fields items) = true ->
  snd (GetJSONOutput g apiVer context kind verbosity fields items) = true.
Proof.
  intros Hfatal.
  destruct (GetJSONOutput_root_flag g apiVer context kind verbosity fields items)
    as [Hm _].
  unfold GetJSONOutput. rewrite (GetJSONOutput_emit_flag g _ Hm), Hfatal.
  destruct (json_Marshal _) as [j|]; [|reflexivity].
  destruct (snd (PrettyJSON g j [])); [|reflexivity].
  destruct (json_Marshal _); reflexivity.
Qed.

(** The fallback builder escapes a text that [GetJSONOutput] has escaped
    already; the second pass changes nothing. *)
Lemma msg_fragment_adopted (flavor : string) (m : Msg) :
  msg_fragment flavor (adopted m) = msg_fragment flavor m.
Proof.
  unfold msg_fragment, adopted, with_Message. cbn [Message Code Level].
  rewrite escape_text_idem. reflexivity.
Qed.

Lemma FatalJSONMsg_raw_adopted (g : Globals) (apiVer : string) (m : Msg) :
  Message m <> "" ->
  FatalJSONMsg_raw g apiVer (adopted m) = fallback_fragment g apiVer m.
Proof.
  intros Hne. rewrite FatalJSONMsg_raw_fragment.
  unfold effective_error.
  rewrite (eqb_empty_false _ (adopted_nonempty m Hne)). cbn [negb].
  unfold fallback_fragment. rewrite msg_fragment_adopted. reflexivity.
Qed.

(** C1, as the code has it. The boolean [GetJSONOutput] returns is its
    [fatalErr], which says that a fatal error occurred: it is [true] exactly
    when an error was attached to the root (no version, or a latched fatal
    error) or an encoding attempt failed, the first or the one after a
    formatting failure.  A formatting failure alone, after a successful
    encoding, leaves it [false]. *)
Theorem GetJSONOutput_fatal_flag (g : Globals) (apiVer context kind verbosity : string)
    (fields : list string) (items : list Item) :
  let l := GetJSONOutput_root g apiVer context kind verbosity fields items in
  let r := l_apiRoot l in
  let r2 err := set_Warning r (beautify_warning (l_warnMsg l) err) in
  let flag := snd (GetJSONOutput g apiVer context kind verbosity fields items) in
  (Error r <> None <->
     version_missing apiVer = true \/ Message (storedFatalError g) <> "")
  /\ (flag = true <->
        Error r <> None
        \/ (exists e, json_Marshal r = inr e)
        \/ (exists j err e, json_Marshal r = inl j
              /\ snd (PrettyJSON g j []) = Some err
              /\ json_Marshal (r2 err) = inr e))
  /\ (forall j err j2, Error r = None -> json_Marshal r = inl j ->
        snd (PrettyJSON g j []) = Some err -> json_Marshal (r2 err) = inl j2 ->
        flag = false).
Proof.
  cbv zeta.
  destruct (GetJSONOutput_root_flag g apiVer context kind verbosity fields items)
    as [Hm [Hf He]].
  unfold GetJSONOutput.
  rewrite (GetJSONOutput_emit_flag g _ Hm).
  set (l := GetJSONOutput_root g apiVer context kind verbosity fields items) in *.
  split; [|split].
  - rewrite <- He, Hf, orb_true_iff, negb_true_iff, String.eqb_neq. reflexivity.
  - rewrite <- He.
    destruct (json_Marshal (l_apiRoot l)) as [j|e] eqn:M1.
    + destruct (snd (PrettyJSON g j [])) as [err|] eqn:P1.
      * destruct (json_Marshal
                    (set_Warning (l_apiRoot l) (beautify_warning (l_warnMsg l) err)))
          as [j2|e2] eqn:M2.
        -- split; [intros H; left; exact H|].
           intros [H | [[e H] | [j' [err' [e' [Hj [Hp Hm2]]]]]]].
           ++ exact H.
           ++ discriminate H.
           ++ injection Hj as <-. rewrite P1 in Hp. injection Hp as <-.
              rewrite M2 in Hm2. discriminate Hm2.
        -- split; [|reflexivity].
           intros _. right. right. exists j, err, e2.
           split; [reflexivity | split; [exact P1 | exact M2]].
      * split; [intros H; left; exact H|].
        intros [H | [[e H] | [j' [err' [e' [Hj [Hp _]]]]]]].
        -- exact H.
        -- discriminate H.
        -- injection Hj as <-. rewrite P1 in Hp. discriminate Hp.
    + split; [|reflexivity].
      intros _. right. left. exists e. reflexivity.
  - intros j err j2 Hnone M1 P1 M2. rewrite M1, P1, M2.
    destruct (l_fatalErr l); [|reflexivity].
    exfalso. apply (proj1 He); [reflexivity | exact Hnone].
Qed.

(** C3, as the code has it. When the fatal-error accumulator holds a message
    of non-empty text and a version is available, [GetJSONOutput] returns the
    flag [true] (a fatal error occurred); the root it encodes has id -1, the
    latched message with its text escaped as its error, and no data section,
    note or warning, whatever items were supplied; and the text returned is
    the encoding of that root, formatted (or, after a formatting failure, the
    encoding of that root with the formatting warning added), or the fallback
    text for that error when the root cannot be encoded, or the fallback text
    for the formatting warning raised to FATAL when the second encoding
    fails.  The fallback text for that error is the fixed shape with the
    latched text escaped once. *)
Theorem latched_fatal_error_output (g : Globals) (apiVer context kind verbosity : string)
    (fields : list string) (items : list Item) :
  Message (storedFatalError g) <> "" ->
  version_missing apiVer = false ->
  let e := with_Message (storedFatalError g) (escape_text (Message (storedFatalError g))) in
  let l := GetJSONOutput_root g apiVer context kind verbosity fields items in
  let out := GetJSONOutput g apiVer context kind verbosity fields items in
  snd out = true
  /\ Message e <> ""
  /\ l_apiRoot l = mkApiData (resolved_version apiVer) context (-1) None None (Some e) None
  /\ l_errMsg l = e
  /\ l_apiVer l = resolved_version apiVer
  /\ emitted g l (fst out)
  /\ FatalJSONMsg_raw g (resolved_version apiVer) e
     = fallback_fragment g (resolved_version apiVer) (storedFatalError g).
Proof.
  intros Hne Hv. cbv zeta.
  destruct (GetJSONOutput_root_flag g apiVer context kind verbosity fields items)
    as [Hm [Hf _]].
  assert (Hfatal : l_fatalErr (GetJSONOutput_root g apiVer context kind verbosity
                     fields items) = true).
  { rewrite Hf, Hv, (eqb_empty_false _ Hne). reflexivity. }
  destruct (GetJSONOutput_root_fatal g apiVer context kind verbosity fields items Hfatal)
    as [_ Hr].
  assert (Herr : l_errMsg (GetJSONOutput_root g apiVer context kind verbosity fields items)
                 = adopted (storedFatalError g)).
  { rewrite GetJSONOutput_root_eq. cbv zeta. cbn [l_errMsg].
    unfold active_error. rewrite Hv, (eqb_empty_false _ Hne). reflexivity. }
  split; [|split; [|split; [|split; [|split; [|split]]]]].
  - apply GetJSONOutput_flag_fatal. exact Hfatal.
  - exact (adopted_nonempty _ Hne).
  - rewrite Hr, Herr. reflexivity.
  - exact Herr.
  - rewrite GetJSONOutput_root_eq. reflexivity.
  - apply GetJSONOutput_emit_emitted.
  - apply (FatalJSONMsg_raw_adopted g _ (storedFatalError g) Hne).
Qed.

(** C4, as the code has it. With an empty version argument and an empty
    [PKG_API_APIVER], [GetJSONOutput] returns the flag [true] (a fatal error
    occurred); the root it encodes has the version [?.?], id -1, the error of
    code 1001 and level [FATAL], and no data section; and the text returned is
    the encoding of that root, formatted (or, after a formatting failure, the
    encoding of that root with the formatting warning added), or the fallback
    text for that error and version when the root cannot be encoded, or the
    fallback text for the formatting warning raised to FATAL when the second
    encoding fails.  The fallback text for that error is the fixed shape with
    version [?.?], code 1001 and level [FATAL]. *)
Theorem missing_version_output (g : Globals) (context kind verbosity : string)
    (fields : list string) (items : list Item) :
  os_Getenv "PKG_API_APIVER" = "" ->
  let e := mkMsg "No valid JSON API version is available" 1001 "FATAL" in
  let l := GetJSONOutput_root g "" context kind verbosity fields items in
  let out := GetJSONOutput g "" context kind verbosity fields items in
  snd out = true
  /\ l_apiRoot l = mkApiData "?.?" context (-1) None None (Some e) None
  /\ l_errMsg l = e
  /\ l_apiVer l = "?.?"
  /\ emitted g l (fst out)
  /\ FatalJSONMsg_raw g "?.?" e = fallback_fragment g "?.?" e.
Proof.
  intros Henv. cbv zeta.
  destruct (GetJSONOutput_root_flag g "" context kind verbosity fields items)
    as [Hm [Hf _]].
  assert (Hv : version_missing "" = true).
  { unfold version_missing. rewrite Henv. reflexivity. }
  assert (Hfatal : l_fatalErr (GetJSONOutput_root g "" context kind verbosity
                     fields items) = true).
  { rewrite Hf, Hv. reflexivity. }
  destruct (GetJSONOutput_root_fatal g "" context kind verbosity fields items Hfatal)
    as [_ Hr].
  assert (Herr : l_errMsg (GetJSONOutput_root g "" context kind verbosity fields items)
                 = no_version_error).
  { rewrite GetJSONOutput_root_eq. cbv zeta. cbn [l_errMsg].
    unfold active_error. rewrite Hv. reflexivity. }
  assert (Hver : resolved_version "" = "?.?").
  { unfold resolved_version. rewrite Henv. reflexivity. }
  split; [|split; [|split; [|split; [|split]]]].
  - apply GetJSONOutput_flag_fatal. exact Hfatal.
  - rewrite Hr, Herr, Hver. reflexivity.
  - exact Herr.
  - rewrite GetJSONOutput_root_eq. cbv zeta. cbn [l_apiVer]. exact Hver.
  - apply GetJSONOutput_emit_emitted.
  - apply FatalJSONMsg_raw_fragment.
Qed.

(** ** More on the accumulators *)

Lemma append_nil_r (s : string) : s ++ "" = s.
Proof. induction s as [|c s IH]; simpl; [reflexivity|]. rewrite IH. reflexivity. Qed.

Lemma append_nonempty_r (a b : string) : b <> "" -> a ++ b <> "".
Proof.
  intros Hb E. destruct a as [|c a]; simpl in E; [exact (Hb E) | discriminate E].
Qed.

Lemma concat_snoc (l : list string) (t : string) :
  String.concat "" (l ++ [t]) = String.concat "" l ++ t.
Proof.
  induction l as [|x l IH]; [reflexivity|].
  destruct l as [|y l].
  - simpl. reflexivity.
  - change (String.concat "" ((x :: y :: l) ++ [t]))
      with (x ++ "" ++ String.concat "" ((y :: l) ++ [t])).
    rewrite IH.
    change (String.concat "" (x :: y :: l)) with (x ++ "" ++ String.concat "" (y :: l)).
    simpl. rewrite append_assoc. reflexivity.
Qed.

(** A call of an additive setter that returns stores the new text followed by
    the stored one, latched or not, and leaves the rest of the package
    variables alone. *)
Lemma SetStoredNonFatalWarning_text (g : Globals) (msg : Msg)
    (defCode : option (list Z)) (d : Z) :
  defaultCode_of defCode = Some d ->
  exists g', SetStoredNonFatalWarning g msg defCode = Some g'
    /\ Message (storedNonFatalWarning g') = Message msg ++ Message (storedNonFatalWarning g)
    /\ storedFatalError g' = storedFatalError g
    /\ storedNote g' = storedNote g
    /\ jsonIndentLevel g' = jsonIndentLevel g
    /\ jsonPrefix g' = jsonPrefix g
    /\ jsonRaw g' = jsonRaw g.
Proof.
  intros Hd.
  destruct (Message (storedNonFatalWarning g) =? "") eqn:E.
  - apply String.eqb_eq in E. eexists. split.
    + apply (SetStoredNonFatalWarning_first g msg defCode d Hd E).
    + cbn [storedNonFatalWarning storedFatalError storedNote jsonIndentLevel
           jsonPrefix jsonRaw].
      rewrite E, append_nil_r. repeat split.
  - apply String.eqb_neq in E. eexists. split.
    + apply (SetStoredNonFatalWarning_latched g msg defCode d Hd E).
    + repeat split.
Qed.

Lemma SetStoredNote_text (g : Globals) (msg : Msg)
    (defCode : option (list Z)) (d : Z) :
  defaultCode_of defCode = Some d ->
  exists g', SetStoredNote g msg defCode = Some g'
    /\ Message (storedNote g') = Message msg ++ Message (storedNote g)
    /\ storedFatalError g' = storedFatalError g
    /\ storedNonFatalWarning g' = storedNonFatalWarning g
    /\ jsonIndentLevel g' = jsonIndentLevel g
    /\ jsonPrefix g' = jsonPrefix g
    /\ jsonRaw g' = jsonRaw g.
Proof.
  intros Hd.
  destruct (Message (storedNote g) =? "") eqn:E.
  - apply String.eqb_eq in E. eexists. split.
    + apply (SetStoredNote_first g msg defCode d Hd E).
    + cbn [storedNonFatalWarning storedFatalError storedNote jsonIndentLevel
           jsonPrefix jsonRaw].
      rewrite E, append_nil_r. repeat split.
  - apply String.eqb_neq in E. eexists. split.
    + apply (SetStoredNote_latched g msg defCode d Hd E).
    + repeat split.
Qed.

Lemma texts_newest_first_cons (m : Msg) (msgs : list Msg) :
  texts_newest_first (m :: msgs) = texts_newest_first msgs ++ Message m.
Proof. unfold texts_newest_first. simpl. apply concat_snoc. Qed.

(** X6. However many messages are latched in a row with
    [SetStoredNonFatalWarning] (or with [SetStoredNote]), the stored text is
    the texts of all of them, the newest first, followed by the text stored
    before, with no separator; the other two accumulators and the formatter's
    settings are left as they were. *)
Theorem latch_all_text (g : Globals) (msgs : list Msg)
    (defCode : option (list Z)) (d : Z) :
  defaultCode_of defCode = Some d ->
  (exists g', latch_warnings g msgs defCode = Some g'
     /\ Message (storedNonFatalWarning g')
          = texts_newest_first msgs ++ Message (storedNonFatalWarning g)
     /\ storedFatalError g' = storedFatalError g
     /\ storedNote g' = storedNote g
     /\ jsonRaw g' = jsonRaw g)
  /\ (exists g', latch_notes g msgs defCode = Some g'
     /\ Message (storedNote g') = texts_newest_first msgs ++ Message (storedNote g)
     /\ storedFatalError g' = storedFatalError g
     /\ storedNonFatalWarning g' = storedNonFatalWarning g
     /\ jsonRaw g' = jsonRaw g).
Proof.
  intros Hd. split.
  - revert g. induction msgs as [|m msgs IH]; intros g.
    + exists g. repeat split.
    + destruct (SetStoredNonFatalWarning_text g m defCode d Hd)
        as [g1 [H1 [T1 [F1 [N1 [_ [_ R1]]]]]]].
      destruct (IH g1) as [g' [H' [T' [F' [N' R']]]]].
      exists g'. cbn [latch_warnings]. rewrite H1.
      split; [exact H'|].
      rewrite T', T1, F', F1, N', N1, R', R1, texts_newest_first_cons, append_assoc.
      repeat split.
  - revert g. induction msgs as [|m msgs IH]; intros g.
    + exists g. repeat split.
    + destruct (SetStoredNote_text g m defCode d Hd)
        as [g1 [H1 [T1 [F1 [N1 [_ [_ R1]]]]]]].
      destruct (IH g1) as [g' [H' [T' [F' [N' R']]]]].
      exists g'. cbn [latch_notes]. rewrite H1.
      split; [exact H'|].
      rewrite T', T1, F', F1, N', N1, R', R1, texts_newest_first_cons, append_assoc.
      repeat split.
Qed.

(** X7. A code that is neither 0 nor the default, once stored with a
    non-empty text, survives every later warning whose own code is 0 or the
    default, however many are latched. *)
Theorem latch_warnings_code_sticks (g : Globals) (msgs : list Msg)
    (defCode : option (list Z)) (d : Z) :
  defaultCode_of defCode = Some d ->
  Message (storedNonFatalWarning g) <> "" ->
  Code (storedNonFatalWarning g) <> 0%Z ->
  Code (storedNonFatalWarning g) <> d ->
  Forall (fun m => Code m = 0%Z \/ Code m = d) msgs ->
  exists g', latch_warnings g msgs defCode = Some g'
    /\ Code (storedNonFatalWarning g') = Code (storedNonFatalWarning g)
    /\ Message (storedNonFatalWarning g') <> "".
Proof.
  intros Hd. revert g.
  induction msgs as [|m msgs IH]; intros g Hne H0 Hdd Hall.
  - exists g. repeat split. exact Hne.
  - inversion Hall as [|m' msgs' Hm Hrest]; subst.
    pose proof (SetStoredNonFatalWarning_latched g m defCode d Hd Hne) as H1.
    set (g1 := mkGlobals (jsonIndentLevel g) (jsonPrefix g) (jsonRaw g)
                 (storedFatalError g) (merged (storedNonFatalWarning g) m d)
                 (storedNote g)) in *.
    assert (Hcode : Code (storedNonFatalWarning g1) = Code (storedNonFatalWarning g)).
    { unfold g1. cbn [storedNonFatalWarning merged Code]. unfold merged_code.
      apply Z.eqb_neq in H0. apply Z.eqb_neq in Hdd. rewrite H0, Hdd.
      destruct Hm as [Hm | Hm]; rewrite Hm.
      - reflexivity.
      - rewrite Z.eqb_refl, orb_true_r. reflexivity. }
    assert (Htext : Message (storedNonFatalWarning g1) <> "").
    { unfold g1. cbn [storedNonFatalWarning merged Message].
      apply append_nonempty_r. exact Hne. }
    destruct (IH g1 Htext) as [g' [H' [C' T']]].
    + rewrite Hcode. exact H0.
    + rewrite Hcode. exact Hdd.
    + exact Hrest.
    + exists g'. cbn [latch_warnings]. rewrite H1.
      split; [exact H'|]. split; [|exact T'].
      rewrite C'. exact Hcode.
Qed.


(** ** More on the formatter and the fallback builder *)

(** X9. The optional arguments of [PrettyJSON]: one is the prefix, two are
    the prefix and the indent, and with three or more all of them are ignored
    and the configured prefix and indent are used, as with none.  An explicit
    prefix, or prefix and padded indent, formats as the same setting would. *)
Theorem PrettyJSON_optional_args (g : Globals) (b : list byte) :
  (forall f0 f1 f2 rest, PrettyJSON g b (f0 :: f1 :: f2 :: rest) = PrettyJSON g b [])
  /\ (forall p, PrettyJSON g b [p] = PrettyJSON (SetJSONPrefix g p) b [])
  /\ (forall p n,
        PrettyJSON g b [p; str_Pad "" " " n]
        = PrettyJSON (SetJSONPrefix (SetJSONIndentLevel g n) p) b [])
  /\ (forall p i level pfx,
        PrettyJSON (SetJSONPrefix (SetJSONIndentLevel g level) pfx) b [p; i]
        = PrettyJSON g b [p; i]).
Proof.
  unfold PrettyJSON, SetJSONPrefix, SetJSONIndentLevel.
  cbn [jsonRaw jsonPrefix jsonIndentLevel].
  destruct (jsonRaw g); repeat split.
Qed.

Lemma append_newline_nonempty (s : string) : s ++ newline <> "".
Proof. destruct s; discriminate. Qed.

(** Without raw mode the text of [PrettyJSON] ends in a line feed, error or
    not, and its error is that of [json.Indent]. *)
Lemma PrettyJSON_formatted (g : Globals) (b : list byte) (fmt : list string) :
  jsonRaw g = false ->
  exists s, fst (PrettyJSON g b fmt) = s ++ newline.
Proof.
  intros Hraw. unfold PrettyJSON. rewrite Hraw.
  destruct fmt as [|f0 [|f1 [|f2 rest]]];
    match goal with
    | |- context [json_Indent ?x ?y ?z] => destruct (json_Indent x y z) as [out err]
    end; eexists; reflexivity.
Qed.

Lemma PrettyJSON_raw_text (g : Globals) (s : string) :
  jsonRaw g = true ->
  PrettyJSON g (list_byte_of_string s) [] = (s, None).
Proof.
  intros Hraw. unfold PrettyJSON, cast_ToString. rewrite Hraw.
  rewrite string_of_list_byte_of_string. reflexivity.
Qed.

Lemma fallback_fragment_nonempty (g : Globals) (apiVer : string) (e : Msg) :
  fallback_fragment g apiVer e <> "".
Proof. unfold fallback_fragment. discriminate. Qed.

Lemma FatalJSONMsg_not_empty (g : Globals) (apiVer : string) (errMsg : Msg) :
  FatalJSONMsg g apiVer errMsg <> "".
Proof.
  unfold FatalJSONMsg. rewrite FatalJSONMsg_raw_fragment.
  destruct (jsonRaw g) eqn:Hraw.
  - rewrite (PrettyJSON_raw_text g _ Hraw). apply fallback_fragment_nonempty.
  - destruct (PrettyJSON_formatted g
                (list_byte_of_string
                   (fallback_fragment g apiVer (effective_error g errMsg)))
                [] Hraw) as [s Hs].
    destruct (PrettyJSON g _ []) as [out [err|]].
    + apply fallback_fragment_nonempty.
    + cbn [fst] in Hs. rewrite Hs. apply append_newline_nonempty.
Qed.

Lemma marshal_error_nonempty (errMsg : Msg) : Message (marshal_error errMsg) <> "".
Proof.
  unfold marshal_error. destruct (Message errMsg =? "") eqn:E.
  - discriminate.
  - apply String.eqb_neq. exact E.
Qed.

(** The text [GetJSONOutput_emit] returns when an encoding fails. *)
Lemma GetJSONOutput_emit_first_failure (g : Globals) (l : Locals) (e : error) :
  json_Marshal (l_apiRoot l) = inr e ->
  fst (GetJSONOutput_emit g l) = FatalJSONMsg g (l_apiVer l) (marshal_error (l_errMsg l)).
Proof.
  intros M1. unfold GetJSONOutput_emit. cbv zeta. rewrite M1.
  unfold marshal_error, with_Message, with_Code, with_Level.
  destruct (Message (l_errMsg l) =? ""); reflexivity.
Qed.

Lemma GetJSONOutput_emit_second_failure (g : Globals) (l : Locals)
    (j : list byte) (err e : error) :
  json_Marshal (l_apiRoot l) = inl j ->
  snd (PrettyJSON g j []) = Some err ->
  json_Marshal (set_Warning (l_apiRoot l) (beautify_warning (l_warnMsg l) err)) = inr e ->
  fst (GetJSONOutput_emit g l)
    = FatalJSONMsg g (l_apiVer l) (with_Level (beautify_warning (l_warnMsg l) err) "FATAL").
Proof.
  intros M1 P1 M2. unfold GetJSONOutput_emit. cbv zeta. rewrite M1.
  destruct (PrettyJSON g j []) as [o [err'|]]; cbn [snd] in P1; [|discriminate P1].
  injection P1 as ->. rewrite M2. reflexivity.
Qed.

(** X10. The fallback builder never returns the empty text, whatever the
    version, the message, the accumulators and the formatter do; so whenever
    an encoding attempt of [GetJSONOutput] fails, the first or the one after a
    formatting failure, the text returned is not empty. *)
Theorem fallback_text_not_empty (g : Globals) (apiVer context kind verbosity : string)
    (fields : list string) (items : list Item) :
  let l := GetJSONOutput_root g apiVer context kind verbosity fields items in
  let r := l_apiRoot l in
  let out := GetJSONOutput g apiVer context kind verbosity fields items in
  (forall ver m, FatalJSONMsg g ver m <> "")
  /\ (forall e, json_Marshal r = inr e -> fst out <> "")
  /\ (forall j err e, json_Marshal r = inl j -> snd (PrettyJSON g j []) = Some err ->
        json_Marshal (set_Warning r (beautify_warning (l_warnMsg l) err)) = inr e ->
        fst out <> "").
Proof.
  cbv zeta. unfold GetJSONOutput. split; [|split].
  - intros ver m. apply FatalJSONMsg_not_empty.
  - intros e M1. rewrite (GetJSONOutput_emit_first_failure g _ e M1).
    apply FatalJSONMsg_not_empty.
  - intros j err e M1 P1 M2.
    rewrite (GetJSONOutput_emit_second_failure g _ j err e M1 P1 M2).
    apply FatalJSONMsg_not_empty.
Qed.

(** X11. In raw mode the formatter plays no part: [FatalJSONMsg] returns its
    fragment as it is, and [GetJSONOutput] returns the encoded bytes as text,
    with the flag of the root, or, when the root cannot be encoded, the
    fallback fragment and [true]; the formatting warning 1003 never arises. *)
Theorem raw_mode_output (g : Globals) (apiVer context kind verbosity : string)
    (fields : list string) (items : list Item) :
  jsonRaw g = true ->
  let l := GetJSONOutput_root g apiVer context kind verbosity fields items in
  (forall ver m,
     FatalJSONMsg g ver m = fallback_fragment g ver (effective_error g m))
  /\ GetJSONOutput g apiVer context kind verbosity fields items
     = match json_Marshal (l_apiRoot l) with
       | inl j => (string_of_list_byte j, l_fatalErr l)
       | inr _ =>
           (fallback_fragment g (l_apiVer l) (marshal_error (l_errMsg l)), true)
       end.
Proof.
  intros Hraw. cbv zeta.
  assert (HF : forall ver m,
            FatalJSONMsg g ver m = fallback_fragment g ver (effective_error g m)).
  { intros ver m. unfold FatalJSONMsg. rewrite FatalJSONMsg_raw_fragment.
    rewrite (PrettyJSON_raw_text g _ Hraw). reflexivity. }
  split; [exact HF|].
  unfold GetJSONOutput.
  set (l := GetJSONOutput_root g apiVer context kind verbosity fields items).
  destruct (json_Marshal (l_apiRoot l)) as [j|e] eqn:M1.
  - unfold GetJSONOutput_emit. cbv zeta. rewrite M1.
    unfold PrettyJSON, cast_ToString. rewrite Hraw. reflexivity.
  - apply injective_projections.
    + rewrite (GetJSONOutput_emit_first_failure g l e M1), HF.
      unfold effective_error.
      rewrite (eqb_empty_false _ (marshal_error_nonempty _)). reflexivity.
    + destruct (GetJSONOutput_root_flag g apiVer context kind verbosity fields items)
        as [Hm _].
      fold l in Hm. rewrite (GetJSONOutput_emit_flag g l Hm), M1. reflexivity.
Qed.

(** ** More on the output builder *)

(** X12. The variable [PKG_API_APIVER] stands in for the version argument in
    every respect: a call with no version returns what the call with the
    variable's value as the version returns. *)
Theorem GetJSONOutput_env_version (g : Globals) (context kind verbosity : string)
    (fields : list string) (items : list Item) :
  GetJSONOutput g "" context kind verbosity fields items
  = GetJSONOutput g (os_Getenv "PKG_API_APIVER") context kind verbosity fields items.
Proof.
  unfold GetJSONOutput. f_equal.
  rewrite !GetJSONOutput_root_eq.
  unfold active_error, version_missing, resolved_version.
  destruct (os_Getenv "PKG_API_APIVER" =? ""); reflexivity.
Qed.

(** X13. Once an error is active, for want of a version or because a fatal
    error is latched, nothing of the kind, the verbosity, the fields and the
    items reaches the output: the call returns the same text and flag for any
    other such arguments. *)
Theorem GetJSONOutput_error_ignores_items (g : Globals)
    (apiVer context kind verbosity kind' verbosity' : string)
    (fields fields' : list string) (items items' : list Item) :
  version_missing apiVer = true \/ Message (storedFatalError g) <> "" ->
  GetJSONOutput g apiVer context kind verbosity fields items
  = GetJSONOutput g apiVer context kind' verbosity' fields' items'.
Proof.
  intros H. unfold GetJSONOutput. f_equal.
  rewrite !GetJSONOutput_root_eq. cbv zeta.
  assert (E : (Message (active_error g apiVer) =? "") = false).
  { rewrite active_error_empty.
    destruct H as [H | H].
    - rewrite H. reflexivity.
    - rewrite (eqb_empty_false _ H), orb_true_r. reflexivity. }
  rewrite E. reflexivity.
Qed.

(** X14. With a version at hand and no fatal error latched, the root
    [GetJSONOutput] encodes has id 0, no error, the data section of the
    items, and the latched warning and note, texts escaped, each present
    exactly when latched.  After a formatting failure the root encoded again
    differs in its warning only, which is the formatting warning of code 1003:
    a warning that was latched is not in that output. *)
Theorem GetJSONOutput_success_root (g : Globals) (apiVer context kind verbosity : string)
    (fields : list string) (items : list Item) :
  version_missing apiVer = false ->
  Message (storedFatalError g) = "" ->
  let l := GetJSONOutput_root g apiVer context kind verbosity fields items in
  let n := Z.of_nat (List.length items) in
  let attached m := if Message m =? "" then None else Some (adopted m) in
  l_apiRoot l =
    mkApiData (resolved_version apiVer) context 0
      (attached (storedNote g)) (attached (storedNonFatalWarning g)) None
      (Some (mkJsonData kind verbosity fields n 1 n items))
  /\ l_fatalErr l = false
  /\ (forall err,
        set_Warning (l_apiRoot l) (beautify_warning (l_warnMsg l) err) =
          mkApiData (resolved_version apiVer) context 0
            (attached (storedNote g))
            (Some (mkMsg ("Unable to beautify JSON output: " ++ err_Error err)
                     1003 "ISSUE"))
            None
            (Some (mkJsonData kind verbosity fields n 1 n items))).
Proof.
  intros Hv Hf. cbv zeta.
  rewrite GetJSONOutput_root_eq. cbv zeta. cbn [l_apiRoot l_fatalErr l_warnMsg].
  rewrite active_error_empty, Hv, Hf. cbn [orb negb String.eqb].
  assert (Hc : forall m, negb (Message (carried m) =? "") = negb (Message m =? "")).
  { intros m. unfold carried. destruct (Message m =? "") eqn:E; [reflexivity|].
    f_equal. apply eqb_empty_false, adopted_nonempty. apply String.eqb_neq. exact E. }
  rewrite !Hc.
  unfold carried.
  destruct (Message (storedNonFatalWarning g) =? "");
    destruct (Message (storedNote g) =? ""); repeat split.
Qed.

(** X17. The successful call: with a version at hand and no fatal error
    latched, when the root is encoded and formatted the call returns the
    formatter's text and [false]; and when the formatter fails but the root
    with the formatting warning is encoded, it still returns [false], with
    the formatter's text for the second encoding or, if formatting fails
    again, the second encoding itself as text. *)
Theorem GetJSONOutput_success (g : Globals) (apiVer context kind verbosity : string)
    (fields : list string) (items : list Item) (j : list byte) :
  version_missing apiVer = false ->
  Message (storedFatalError g) = "" ->
  let l := GetJSONOutput_root g apiVer context kind verbosity fields items in
  let out := GetJSONOutput g apiVer context kind verbosity fields items in
  json_Marshal (l_apiRoot l) = inl j ->
  (forall o, PrettyJSON g j [] = (o, None) -> out = (o, false))
  /\ (forall o err j2,
        PrettyJSON g j [] = (o, Some err) ->
        json_Marshal (set_Warning (l_apiRoot l) (beautify_warning (l_warnMsg l) err))
          = inl j2 ->
        out = (match PrettyJSON g j2 [] with
               | (o2, None) => o2
               | (_, Some _) => string_of_list_byte j2
               end, false)).
Proof.
  intros Hv Hf. cbv zeta. intros M1.
  destruct (GetJSONOutput_root_flag g apiVer context kind verbosity fields items)
    as [_ [Hfl _]].
  rewrite Hv, Hf in Hfl. cbn [orb negb String.eqb] in Hfl.
  unfold GetJSONOutput, GetJSONOutput_emit. cbv zeta. rewrite M1, Hfl.
  split.
  - intros o P1. rewrite P1. reflexivity.
  - intros o err j2 P1 M2. rewrite P1, M2.
    destruct (PrettyJSON g j2 []) as [o2 [err2|]]; reflexivity.
Qed.

Lemma FatalJSONMsg_other_fatal (g : Globals) (e : Msg) (apiVer : string) (m : Msg) :
  Message m <> "" ->
  FatalJSONMsg (SetStoredFatalError g e) apiVer m = FatalJSONMsg g apiVer m.
Proof.
  intros Hne. unfold FatalJSONMsg. rewrite !FatalJSONMsg_raw_fragment.
  unfold effective_error. rewrite (eqb_empty_false _ Hne). cbn [negb].
  reflexivity.
Qed.

(** X19. A missing version outranks a latched fatal error: when no version
    is given and the environment has none, the call returns the same text and
    flag whatever fatal error is latched; the latched error is in none of the
    outputs. *)
Theorem missing_version_hides_latched_error (g : Globals) (e : Msg)
    (apiVer context kind verbosity : string)
    (fields : list string) (items : list Item) :
  version_missing apiVer = true ->
  GetJSONOutput (SetStoredFatalError g e) apiVer context kind verbosity fields items
  = GetJSONOutput g apiVer context kind verbosity fields items.
Proof.
  intros Hv.
  assert (Hroot :
    GetJSONOutput_root (SetStoredFatalError g e) apiVer context kind verbosity
      fields items
    = GetJSONOutput_root g apiVer context kind verbosity fields items).
  { rewrite !GetJSONOutput_root_eq. unfold active_error. rewrite Hv.
    reflexivity. }
  unfold GetJSONOutput. rewrite Hroot.
  set (l := GetJSONOutput_root g apiVer context kind verbosity fields items).
  assert (Herr : Message (l_errMsg l) <> "").
  { unfold l. rewrite GetJSONOutput_root_eq. cbv zeta. cbn [l_errMsg].
    unfold active_error. rewrite Hv. discriminate. }
  unfold GetJSONOutput_emit. cbv zeta.
  rewrite (eqb_empty_false _ Herr).
  rewrite (FatalJSONMsg_other_fatal g e _ _ Herr).
  destruct (json_Marshal (l_apiRoot l)) as [j|]; [|reflexivity].
  change (PrettyJSON (SetStoredFatalError g e) j []) with (PrettyJSON g j []).
  destruct (PrettyJSON g j []) as [o [err|]]; [|reflexivity].
  destruct (json_Marshal _) as [j2|].
  - change (PrettyJSON (SetStoredFatalError g e) j2 []) with (PrettyJSON g j2 []).
    reflexivity.
  - rewrite FatalJSONMsg_other_fatal; [reflexivity | discriminate].
Qed.

End Api.

Arguments APIVersion {Item} _.
Arguments Context {Item} _.
Arguments ID {Item} _.
Arguments Note {Item} _.
Arguments Warning {Item} _.
Arguments Error {Item} _.
Arguments Data {Item} _.
Arguments TotalItems {Item} _.
Arguments StartIndex {Item} _.
Arguments CurrentItemCount {Item} _.
Arguments Items {Item} _.
Arguments l_apiVer {Item} _.
Arguments l_errMsg {Item} _.
Arguments l_warnMsg {Item} _.
Arguments l_fatalErr {Item} _.
Arguments l_apiRoot {Item} _.

(** * The earlier generations of the package

    The sources keep two earlier states of [api.go] and [json.go].  In the
    earlier one ([Legacy]) the accumulators are [storedFatal] and
    [storedWarning], both plain overwrites, the root has no note, and the
    fallback builder escapes with [EscapeCtrl].  In the earliest one
    ([Oldest]) the root is [Root] and the builder is [GetJSONString], which
    reports through the package [out].  [PrettyJSON] and the three formatter
    settings are the same text in all three, and are shared here. *)

Module Legacy.

Section LegacyApi.

Variable Item : Type.
Variable error : Type.
Variable err_Error : error -> string.

(** [type apiData struct] of the earlier [api.go]: no [Note]. *)
Record apiData : Type := mkApiData {
  APIVersion : string;
  Context : string;
  ID : Z;
  Data : option (jsonData Item);
  Warning : option Msg;
  Error : option Msg
}.

Variable json_Marshal : apiData -> list byte + error.
Variable json_Indent : list byte -> string -> string -> list byte * option error.
Variable os_Getenv : string -> string.
Variable str_Pad : string -> string -> Z -> string.

(** The earlier package variables [storedFatal] and [storedWarning] are held
    in the fields [storedFatalError] and [storedNonFatalWarning] of
    [Globals]; the earlier package has no note, and its functions leave the
    field [storedNote] alone. *)
Definition storedFatal (g : Globals) : Msg := storedFatalError g.
Definition storedWarning (g : Globals) : Msg := storedNonFatalWarning g.

Definition SetStoredFatal (g : Globals) (msg : Msg) : Globals :=
  mkGlobals (jsonIndentLevel g) (jsonPrefix g) (jsonRaw g)
    msg (storedNonFatalWarning g) (storedNote g).

Definition SetStoredWarning (g : Globals) (msg : Msg) : Globals :=
  mkGlobals (jsonIndentLevel g) (jsonPrefix g) (jsonRaw g)
    (storedFatalError g) msg (storedNote g).

Definition newAPIData (apiVersion context : string) : apiData :=
  mkApiData apiVersion context 0 None None None.

Definition SetAPIItems (r : apiData) (kind verbosity : string)
    (fields : list string) (items : list Item) : apiData :=
  let length := Z.of_nat (List.length items) in
  let data := mkJsonData Item kind verbosity fields length 1 length items in
  mkApiData (APIVersion r) (Context r) (ID r) (Some data) (Warning r) (Error r).

Definition set_ID (r : apiData) (id : Z) : apiData :=
  mkApiData (APIVersion r) (Context r) id (Data r) (Warning r) (Error r).
Definition set_Warning (r : apiData) (m : Msg) : apiData :=
  mkApiData (APIVersion r) (Context r) (ID r) (Data r) (Some m) (Error r).
Definition set_Error (r : apiData) (m : Msg) : apiData :=
  mkApiData (APIVersion r) (Context r) (ID r) (Data r) (Warning r) (Some m).

(** The text the earlier [FatalJSONMsg] hands to [PrettyJSON]. *)
Definition FatalJSONMsg_raw (apiVer : string) (msg : Msg) : string :=
  let cleanMsg := Escaper.EscapeCtrl (list_byte_of_string (Message msg)) in
  "{ " ++ quoted "apiVersion" ++ ":" ++ quoted apiVer ++ ", " ++ quoted "id" ++ ": -1, "
    ++ quoted "error" ++ ": { " ++ quoted "message" ++ ": "
    ++ quoted (string_of_list_byte cleanMsg)
    ++ ", " ++ quoted "code" ++ ": " ++ fmt_d (Code msg)
    ++ ", " ++ quoted "level" ++ ": " ++ quoted (Level msg) ++ " } }".

Definition FatalJSONMsg (g : Globals) (apiVer : string) (msg : Msg) : string :=
  let rawJSON := FatalJSONMsg_raw apiVer msg in
  match PrettyJSON error json_Indent str_Pad g (list_byte_of_string rawJSON) [] with
  | (_, Some _) => rawJSON
  | (output, None) => output
  end.

(** The local variables of the earlier [GetJSONOutput] at its first
    [json.Marshal]. *)
Record Locals : Type := mkLocals {
  l_apiVer : string;
  l_errMsg : Msg;
  l_warnMsg : Msg;
  l_fatalErr : bool;
  l_apiRoot : apiData
}.

Definition GetJSONOutput_root (g : Globals) (apiVer context kind verbosity : string)
    (fields : list string) (items : list Item) : Locals :=
  let errMsg := zeroMsg in
  let warnMsg := zeroMsg in
  let fatalErr := false in
  let '(apiVer, errMsg, fatalErr) :=
    if apiVer =? "" then
      let apiVer := os_Getenv "PKG_API_APIVER" in
      if apiVer =? "" then
        let apiVer := "?.?" in
        let errMsg := with_Message errMsg "No valid JSON API version is available" in
        let errMsg := with_Code errMsg 1001 in
        let errMsg := with_Level errMsg "FATAL" in
        (apiVer, errMsg, true)
      else (apiVer, errMsg, fatalErr)
    else (apiVer, errMsg, fatalErr) in
  let apiRoot := newAPIData apiVer context in
  let '(errMsg, warnMsg, fatalErr) :=
    if (Message errMsg =? "") && negb (Message (storedFatal g) =? "") then
      (storedFatal g, warnMsg, true)
    else if (Message errMsg =? "") && negb (Message (storedWarning g) =? "") then
      (errMsg, storedWarning g, fatalErr)
    else (errMsg, warnMsg, fatalErr) in
  let apiRoot :=
    if Message errMsg =? "" then
      let apiRoot := SetAPIItems apiRoot kind verbosity fields items in
      if negb (Message warnMsg =? "") then set_Warning apiRoot warnMsg else apiRoot
    else
      let apiRoot := set_ID apiRoot (-1) in
      set_Error apiRoot errMsg in
  mkLocals apiVer errMsg warnMsg fatalErr apiRoot.

Definition GetJSONOutput_emit (g : Globals) (l : Locals) : string * bool :=
  let apiVer := l_apiVer l in
  let errMsg := l_errMsg l in
  let warnMsg := l_warnMsg l in
  let fatalErr := l_fatalErr l in
  let apiRoot := l_apiRoot l in
  match json_Marshal apiRoot with
  | inr _ =>
      let '(errMsg, fatalErr) :=
        if Message errMsg =? "" then
          let errMsg := with_Message errMsg "Unable to marshal basic JSON API string" in
          let errMsg := with_Code errMsg 1002 in
          let errMsg := with_Level errMsg "FATAL" in
          (errMsg, true)
        else (errMsg, fatalErr) in
      let rawJSON := FatalJSONMsg g apiVer errMsg in
      (rawJSON, fatalErr)
  | inl j =>
      match PrettyJSON error json_Indent str_Pad g j [] with
      | (output, None) => (output, fatalErr)
      | (_, Some err) =>
          let warnMsg := beautify_warning error err_Error warnMsg err in
          let apiRoot := set_Warning apiRoot warnMsg in
          match json_Marshal apiRoot with
          | inr _ =>
              let warnMsg := with_Level warnMsg "FATAL" in
              let fatalErr := true in
              let rawJSON := FatalJSONMsg g apiVer warnMsg in
              (rawJSON, fatalErr)
          | inl j =>
              match PrettyJSON error json_Indent str_Pad g j [] with
              | (_, Some _) => (cast_ToString j, fatalErr)
              | (output, None) => (output, fatalErr)
              end
          end
      end
  end.

Definition GetJSONOutput (g : Globals) (apiVer context kind verbosity : string)
    (fields : list string) (items : list Item) : string * bool :=
  GetJSONOutput_emit g
    (GetJSONOutput_root g apiVer context kind verbosity fields items).

End LegacyApi.

Arguments APIVersion {Item} _.
Arguments Context {Item} _.
Arguments ID {Item} _.
Arguments Data {Item} _.
Arguments Warning {Item} _.
Arguments Error {Item} _.
Arguments l_apiVer {Item} _.
Arguments l_errMsg {Item} _.
Arguments l_warnMsg {Item} _.
Arguments l_fatalErr {Item} _.
Arguments l_apiRoot {Item} _.

End Legacy.

Module Oldest.

Section OldestApi.

Variable Item : Type.
Variable error : Type.
Variable err_Error : error -> string.

(** [type Root struct] of the earliest [api.go]. *)
Record Root : Type := mkRoot {
  APIVersion : string;
  Context : string;
  ID : Z;
  Data : option (jsonData Item);
  Error : option Msg
}.

Variable json_Marshal : Root -> list byte + error.
Variable json_Indent : list byte -> string -> string -> list byte * option error.
Variable os_Getenv : string -> string.
Variable str_Pad : string -> string -> Z -> string.

Definition NewRoot (apiVersion context : string) : Root :=
  mkRoot apiVersion context 0 None None.

Definition SetAPIItems (r : Root) (kind verbosity : string)
    (fields : list string) (items : list Item) : Root :=
  let length := Z.of_nat (List.length items) in
  let data := mkJsonData Item kind verbosity fields length 1 length items in
  mkRoot (APIVersion r) (Context r) (ID r) (Some data) (Error r).

(** What a call of [GetJSONString] does: it ends in [out.Fatalln], which
    ends the process, or it returns a text, after the reports it made with
    [out.Issuef] and [out.Issueln], each kept as the text handed to [out]. *)
Inductive Outcome : Type :=
  | Fatalln (msg : string)
  | Returned (issues : list string) (text : string).

(** [GetJSONString] once it has a version: from [NewRoot] on. *)
Definition GetJSONString_encode (g : Globals) (apiVer context kind verbosity : string)
    (fields : list string) (items : list Item) : Outcome :=
  let apiRoot := SetAPIItems (NewRoot apiVer context) kind verbosity fields items in
  match json_Marshal apiRoot with
  | inr err =>
      (* out.Issuef("Failed to convert %s (%s) items to JSON: %s\n", ...) *)
      Returned
        ["Failed to convert " ++ context ++ " (" ++ kind ++ ") items to JSON: "
           ++ err_Error err ++ newline]
        ""
  | inl j =>
      match PrettyJSON error json_Indent str_Pad g j [] with
      | (_, Some err) =>
          (* out.Issueln("Unable to beautify JSON output:", err) *)
          Returned ["Unable to beautify JSON output: " ++ err_Error err ++ newline] ""
      | (str, None) => Returned [] str
      end
  end.

Definition GetJSONString (g : Globals) (apiVer context kind verbosity : string)
    (fields : list string) (items : list Item) : Outcome :=
  if apiVer =? "" then
    let apiVer := os_Getenv "PKG_API_APIVER" in
    if apiVer =? "" then
      Fatalln "No API version was available to GetJSONString(), failing"
    else GetJSONString_encode g apiVer context kind verbosity fields items
  else GetJSONString_encode g apiVer context kind verbosity fields items.

End OldestApi.

Arguments APIVersion {Item} _.
Arguments Context {Item} _.
Arguments ID {Item} _.
Arguments Data {Item} _.
Arguments Error {Item} _.

End Oldest.

(** * Properties of the earlier generations *)

Section Generations.

Variable Item : Type.
Variable error : Type.
Variable err_Error : error -> string.
Variable json_Marshal : apiData Item -> list byte + error.
Variable legacy_Marshal : Legacy.apiData Item -> list byte + error.
Variable oldest_Marshal : Oldest.Root Item -> list byte + error.
Variable json_Indent : list byte -> string -> string -> list byte * option error.
Variable os_Getenv : string -> string.
Variable str_Pad : string -> string -> Z -> string.


(** A text the escaping routine of the current package leaves as it is. *)
Definition clean_text (s : string) : bool :=
  Escaper.clean Escaper.json_ctrl (list_byte_of_string s).

Lemma adopted_clean (m : Msg) : clean_text (Message m) = true -> adopted m = m.
Proof.
  intros Hc. unfold adopted, with_Message, escape_text.
  rewrite EscapeJSONString_escape_spec, (escape_spec_clean _ _ Hc).
  rewrite string_of_list_byte_of_string. destruct m; reflexivity.
Qed.

Lemma carried_clean (m : Msg) :
  clean_text (Message m) = true ->
  (if Message (carried m) =? "" then None else Some (carried m))
  = (if Message m =? "" then None else Some m).
Proof.
  intros Hc. unfold carried. destruct (Message m =? "") eqn:E; [reflexivity|].
  rewrite (adopted_clean m Hc), E. reflexivity.
Qed.




Lemma oldest_formatted_nonempty (g : Globals) (j : list byte) (s : string) :
  jsonRaw g = false ->
  PrettyJSON error json_Indent str_Pad g j [] = (s, None) ->
  s <> "".
Proof.
  intros Hraw Hp.
  destruct (PrettyJSON_formatted error json_Indent str_Pad g j [] Hraw) as [t Ht].
  rewrite Hp in Ht. cbn [fst] in Ht. rewrite Ht. apply append_newline_nonempty.
Qed.

(** X16. The earliest builder, [GetJSONString]: it ends the process through
    [out.Fatalln] exactly when it is given no version and the environment has
    none; otherwise it returns, having reported at most one issue, and the
    text is empty whenever an issue was reported.  It reports none exactly
    when the root of the items is encoded and formatted, and the text is then
    the formatter's.  Without raw mode the empty text tells a failure from a
    success: it is returned exactly when an issue was reported. *)
Theorem GetJSONString_outcome (g : Globals) (apiVer context kind verbosity : string)
    (fields : list string) (items : list Item) :
  let run := Oldest.GetJSONString Item error err_Error oldest_Marshal json_Indent
               os_Getenv str_Pad g apiVer context kind verbosity fields items in
  let root :=
    Oldest.SetAPIItems Item (Oldest.NewRoot Item (resolved_version os_Getenv apiVer) context)
      kind verbosity fields items in
  (version_missing os_Getenv apiVer = true ->
     run = Oldest.Fatalln "No API version was available to GetJSONString(), failing")
  /\ (version_missing os_Getenv apiVer = false ->
      exists issues text,
        run = Oldest.Returned issues text
        /\ List.length issues <= 1
        /\ (issues <> [] -> text = "")
        /\ (issues = [] <->
              exists j, oldest_Marshal root = inl j
                /\ PrettyJSON error json_Indent str_Pad g j [] = (text, None))
        /\ (jsonRaw g = false -> (text = "" <-> issues <> []))).
Proof.
  cbv zeta. unfold Oldest.GetJSONString, version_missing, resolved_version.
  assert (G : forall ver,
    exists issues text,
      Oldest.GetJSONString_encode Item error err_Error oldest_Marshal json_Indent
        str_Pad g ver context kind verbosity fields items
      = Oldest.Returned issues text
      /\ List.length issues <= 1
      /\ (issues <> [] -> text = "")
      /\ (issues = [] <->
            exists j, oldest_Marshal
                        (Oldest.SetAPIItems Item (Oldest.NewRoot Item ver context)
                           kind verbosity fields items) = inl j
              /\ PrettyJSON error json_Indent str_Pad g j [] = (text, None))
      /\ (jsonRaw g = false -> (text = "" <-> issues <> []))).
  { intros ver. unfold Oldest.GetJSONString_encode. cbv zeta.
    destruct (oldest_Marshal _) as [j|e] eqn:M.
    - destruct (PrettyJSON error json_Indent str_Pad g j []) as [s [err|]] eqn:P.
      + eexists. eexists. split; [reflexivity|].
        split; [simpl; lia|]. split; [reflexivity|]. split.
        * split; [discriminate|].
          intros [j' [Hj Hp]]. injection Hj as <-. rewrite P in Hp. discriminate Hp.
        * intros _. split; [discriminate | reflexivity].
      + eexists. eexists. split; [reflexivity|].
        split; [simpl; lia|]. split; [intros H; exfalso; apply H; reflexivity|]. split.
        * split; [|reflexivity]. intros _. exists j. split; [reflexivity | exact P].
        * intros Hraw. split.
          -- intros Hs. exfalso.
             apply (oldest_formatted_nonempty g j s Hraw P Hs).
          -- intros H. exfalso. apply H. reflexivity.
    - eexists. eexists. split; [reflexivity|].
      split; [simpl; lia|]. split; [reflexivity|]. split.
      + split; [discriminate|].
        intros [j' [Hj _]]. discriminate Hj.
      + intros _. split; [discriminate | reflexivity]. }
  destruct (apiVer =? "") eqn:Ea.
  - destruct (os_Getenv "PKG_API_APIVER" =? "") eqn:Ee; cbn [andb].
    + split; [reflexivity | discriminate].
    + split; [discriminate|]. intros _. apply G.
  - cbn [andb]. split; [discriminate|]. intros _. apply G.
Qed.

End Generations.

Section Environment.

Variable Item : Type.
Variable error : Type.
Variable err_Error : error -> string.
Variable json_Marshal : apiData Item -> list byte + error.
Variable json_Indent : list byte -> string -> string -> list byte * option error.
Variable str_Pad : string -> string -> Z -> string.

(** X18. A version that is given is used as it is: the call returns the same
    text and flag in any two environments. *)
Theorem GetJSONOutput_version_given (env env' : string -> string) (g : Globals)
    (apiVer context kind verbosity : string)
    (fields : list string) (items : list Item) :
  apiVer <> "" ->
  GetJSONOutput Item error err_Error json_Marshal json_Indent env str_Pad
    g apiVer context kind verbosity fields items
  = GetJSONOutput Item error err_Error json_Marshal json_Indent env' str_Pad
      g apiVer context kind verbosity fields items.
Proof.
  intros Hne. unfold GetJSONOutput. f_equal.
  unfold GetJSONOutput_root. rewrite (eqb_empty_false _ Hne). reflexivity.
Qed.

End Environment.

(** * Examples

    A stand-in for each function the package takes from elsewhere, on which
    the functions above can be run. *)

(** Items: numbers, which the sample encoder writes, and a value it cannot
    write, as [encoding/json] cannot write a channel or a function. *)
Inductive SampleItem : Type :=
  | Num (n : Z)
  | Chan.

Fixpoint sample_items (items : list SampleItem) : option string :=
  match items with
  | [] => Some ""
  | Chan :: _ => None
  | Num n :: rest =>
      match sample_items rest with
      | None => None
      | Some s => Some (fmt_d n ++ (if s =? "" then "" else "," ++ s))
      end
  end.

Definition sample_msg (name : string) (m : option Msg) : string :=
  match m with
  | None => ""
  | Some m =>
      "," ++ quoted name ++ ":{" ++ quoted "message" ++ ":" ++ quoted (escape_text (Message m))
        ++ "," ++ quoted "code" ++ ":" ++ fmt_d (Code m)
        ++ "," ++ quoted "level" ++ ":" ++ quoted (Level m) ++ "}"
  end.

(** The sample encoder: the fields of the root in the order of the record,
    absent ones left out; an error when an item cannot be written. *)
Definition sample_Marshal (r : apiData SampleItem) : list byte + string :=
  let head :=
    "{" ++ quoted "apiVersion" ++ ":" ++ quoted (APIVersion r)
      ++ "," ++ quoted "id" ++ ":" ++ fmt_d (ID r)
      ++ sample_msg "note" (Note r) ++ sample_msg "warning" (Warning r)
      ++ sample_msg "error" (Error r) in
  match Data r with
  | None => inl (list_byte_of_string (head ++ "}"))
  | Some d =>
      match sample_items (Items d) with
      | None => inr "json: unsupported type"
      | Some s =>
          inl (list_byte_of_string
                 (head ++ "," ++ quoted "data" ++ ":{" ++ quoted "totalItems" ++ ":"
                    ++ fmt_d (TotalItems d) ++ "," ++ quoted "items" ++ ":[" ++ s ++ "]}}"))
      end
  end.

(** A formatter that accepts every input and leaves it as it is, and one that
    rejects every input. *)
Definition sample_Indent (b : list byte) (prefix indent : string)
    : list byte * option string := (b, None).

Definition failing_Indent (b : list byte) (prefix indent : string)
    : list byte * option string := ([], Some "invalid character").

(** An environment with no variable set. *)
Definition empty_Getenv (name : string) : string := "".

Definition sample_Pad (s c : string) (n : Z) : string :=
  s ++ String.concat "" (repeat c (Z.to_nat n)).

Definition sample_GetJSONOutput :=
  GetJSONOutput SampleItem string (fun e => e) sample_Marshal sample_Indent
    empty_Getenv sample_Pad.

Definition sample_FatalJSONMsg := FatalJSONMsg string sample_Indent sample_Pad.

Definition sample_root :=
  GetJSONOutput_root SampleItem empty_Getenv.

(** A latched fatal error whose text holds two double quotes. *)
Definition disk_full : Msg := mkMsg ("disk " ++ dq ++ "full" ++ dq) 7 "FATAL".

(** ** The additive setters on the texts A and B *)

Lemma additive_latch_witness :
  (exists g1 g2,
     SetStoredNonFatalWarning initGlobals (NewMsg "A" 0 "ISSUE") None = Some g1
     /\ SetStoredNonFatalWarning g1 (NewMsg "B" 0 "ISSUE") None = Some g2
     /\ Message (storedNonFatalWarning g2) = "BA")
  /\ (exists g',
        SetStoredNote
          (mkGlobals 2 "" false zeroMsg zeroMsg (NewMsg "old" 42 "NOTE"))
          (NewMsg "new" 5 "NOTE") (Some [5%Z]) = Some g'
        /\ Message (storedNote g') = "newold"
        /\ Code (storedNote g') = 42%Z).
Proof.
  split.
  - destruct (additive_latch initGlobals (NewMsg "A" 0 "ISSUE") (NewMsg "B" 0 "ISSUE")
                None 0 eq_refl) as [_ [_ [H _]]].
    destruct (H eq_refl ltac:(discriminate)) as [g1 [g2 [H1 [H2 [H3 _]]]]].
    exists g1, g2. split; [exact H1 | split; [exact H2 | exact H3]].
  - destruct (additive_latch
                (mkGlobals 2 "" false zeroMsg zeroMsg (NewMsg "old" 42 "NOTE"))
                (NewMsg "A" 0 "ISSUE") (NewMsg "new" 5 "NOTE")
                (Some [5%Z]) 5 eq_refl) as [_ [H _]].
    destruct (H ltac:(discriminate)) as [g' [H1 [H2 [H3 _]]]].
    exists g'. split; [exact H1 | split; [exact H2 | exact H3]].
Defined.

(** ** The formatter in raw mode *)

Lemma PrettyJSON_raw_witness :
  PrettyJSON string sample_Indent sample_Pad
    (SetJSONRaw (SetJSONPrefix (SetJSONIndentLevel initGlobals 8) ">>") true)
    (list_byte_of_string "{ }") ["> "; "    "]
  = ("{ }", None).
Proof.
  apply (PrettyJSON_raw string sample_Indent sample_Pad
           (SetJSONRaw (SetJSONPrefix (SetJSONIndentLevel initGlobals 8) ">>") true)
           (list_byte_of_string "{ }") ["> "; "    "] eq_refl).
Defined.

(** ** The output builder with a latched fatal error *)

Lemma latched_fatal_error_output_witness :
  let g := SetStoredFatalError initGlobals disk_full in
  snd (sample_GetJSONOutput g "1.0" "ctx" "env" "" [] [Num 1; Num 2]) = true
  /\ l_apiRoot (sample_root g "1.0" "ctx" "env" "" [] [Num 1; Num 2])
     = mkApiData SampleItem "1.0" "ctx" (-1) None None
         (Some (mkMsg "disk \u0022full\u0022" 7 "FATAL")) None.
Proof.
  cbv zeta.
  destruct (latched_fatal_error_output SampleItem string (fun e => e) sample_Marshal
              sample_Indent empty_Getenv sample_Pad
              (SetStoredFatalError initGlobals disk_full)
              "1.0" "ctx" "env" "" [] [Num 1; Num 2]
              ltac:(discriminate) eq_refl) as [H1 [_ [H2 _]]].
  split; [exact H1 | exact H2].
Defined.

(** ** The output builder with no version *)

Lemma missing_version_output_witness :
  snd (sample_GetJSONOutput initGlobals "" "ctx" "env" "" [] [Num 1; Num 2]) = true
  /\ l_apiRoot (sample_root initGlobals "" "ctx" "env" "" [] [Num 1; Num 2])
     = mkApiData SampleItem "?.?" "ctx" (-1) None None
         (Some (mkMsg "No valid JSON API version is available" 1001 "FATAL")) None.
Proof.
  destruct (missing_version_output SampleItem string (fun e => e) sample_Marshal
              sample_Indent empty_Getenv sample_Pad initGlobals
              "ctx" "env" "" [] [Num 1; Num 2] eq_refl) as [H1 [H2 _]].
  split; [exact H1 | exact H2].
Defined.

(** ** Where the code departs from the claims as written *)

(** C1 as written fails: an encoding attempt fails here, on an item the
    encoder cannot write, and the boolean returned is not [false]. *)
Lemma fatal_flag_counterexample :
  sample_Marshal (l_apiRoot (sample_root initGlobals "1.0" "ctx" "env" "" [] [Num 1; Chan]))
    = inr "json: unsupported type"
  /\ snd (sample_GetJSONOutput initGlobals "1.0" "ctx" "env" "" [] [Num 1; Chan]) <> false.
Proof. split; [reflexivity | vm_compute; discriminate]. Qed.

(** C3 as written fails: with a fatal error latched and the version given,
    the boolean returned is not [false]. *)
Lemma latched_fatal_error_counterexample :
  snd (sample_GetJSONOutput (SetStoredFatalError initGlobals disk_full)
         "1.0" "ctx" "env" "" [] [Num 1; Num 2]) <> false.
Proof. vm_compute. discriminate. Qed.

(** C4 as written fails: with no version given and none in the environment,
    the boolean returned is not [false]. *)
Lemma missing_version_counterexample :
  snd (sample_GetJSONOutput initGlobals "" "ctx" "env" "" [] [Num 1; Num 2]) <> false.
Proof. vm_compute. discriminate. Qed.

(** C7 as written fails: for a message of empty text the fallback text is not
    the fixed shape filled with that message's text, code and level; the error
    in it is the fixed message of code 0 and level UNKNOWN.  And a version is
    embedded as it is: a control byte in it stands unescaped in the text. *)
Lemma FatalJSONMsg_counterexample :
  let g := SetJSONRaw initGlobals true in
  sample_FatalJSONMsg g "1.0" (mkMsg "" 7 "X")
    <> fallback_fragment g "1.0" (mkMsg "" 7 "X")
  /\ sample_FatalJSONMsg g "1.0" (mkMsg "" 7 "X")
     = fallback_fragment g "1.0" (mkMsg "Unknown Fatal Error (Coding Error?)" 0 "UNKNOWN")
  /\ In x01 (list_byte_of_string
               (sample_FatalJSONMsg g (String (ascii_of_nat 1) "") (mkMsg "m" 7 "X"))).
Proof.
  cbv zeta. split; [|split].
  - intros H. apply String.eqb_eq in H. vm_compute in H. discriminate H.
  - vm_compute. reflexivity.
  - vm_compute. do 16 right. left. reflexivity.
Qed.

(** ** More examples *)



(** An environment that has the version 9.9. *)
Definition version_Getenv (name : string) : string :=
  if name =? "PKG_API_APIVER" then "9.9" else "".

(** A warning latched with a code of its own. *)
Definition low_disk : Msg := mkMsg "disk low" 42 "ISSUE".

(** The line feed escaped after the letter a, and the six characters that the
    routine writes for it. *)
Lemma EscapeJSONString_collision_witness :
  Escaper.EscapeJSONString ([x61] ++ x0a :: [x62])%list
  = Escaper.EscapeJSONString ([x61] ++ list_byte_of_string "\u000a" ++ [x62])%list
  /\ ([x61] ++ x0a :: [x62])%list
     <> ([x61] ++ list_byte_of_string "\u000a" ++ [x62])%list.
Proof. exact (EscapeJSONString_collision [x61] [x62] x0a eq_refl). Defined.

Lemma EscapeJSONString_injective_witness :
  (list_byte_of_string "say " ++ [x22])%list
  = (list_byte_of_string "say " ++ [x22])%list.
Proof.
  exact (EscapeJSONString_injective
           (list_byte_of_string "say " ++ [x22])%list
           (list_byte_of_string "say " ++ [x22])%list
           eq_refl eq_refl eq_refl).
Defined.

Lemma latch_all_text_witness :
  exists g',
    latch_warnings initGlobals
      [NewMsg "A" 0 "ISSUE"; NewMsg "B" 0 "ISSUE"; NewMsg "C" 0 "ISSUE"] None = Some g'
    /\ Message (storedNonFatalWarning g') = "CBA".
Proof.
  destruct (latch_all_text initGlobals
              [NewMsg "A" 0 "ISSUE"; NewMsg "B" 0 "ISSUE"; NewMsg "C" 0 "ISSUE"]
              None 0 eq_refl) as [[g' [H [T _]]] _].
  exists g'. split; [exact H | exact T].
Defined.

Lemma latch_warnings_code_sticks_witness :
  exists g',
    latch_warnings (mkGlobals 2 "" false zeroMsg low_disk zeroMsg)
      [NewMsg "a" 0 "ISSUE"; NewMsg "b" 5 "ISSUE"] (Some [5%Z]) = Some g'
    /\ Code (storedNonFatalWarning g') = 42%Z.
Proof.
  destruct (latch_warnings_code_sticks
              (mkGlobals 2 "" false zeroMsg low_disk zeroMsg)
              [NewMsg "a" 0 "ISSUE"; NewMsg "b" 5 "ISSUE"] (Some [5%Z]) 5
              eq_refl
              ltac:(discriminate) ltac:(discriminate) ltac:(discriminate)
              ltac:(apply Forall_cons;
                      [left; reflexivity
                      | apply Forall_cons; [right; reflexivity | apply Forall_nil]]))
    as [g' [H [C _]]].
  exists g'. split; [exact H | exact C].
Defined.

Lemma raw_mode_output_witness :
  snd (sample_GetJSONOutput (SetJSONRaw initGlobals true)
         "1.0" "ctx" "env" "" [] [Num 1; Num 2]) = false
  /\ snd (sample_GetJSONOutput (SetJSONRaw initGlobals true)
            "1.0" "ctx" "env" "" [] [Num 1; Chan]) = true.
Proof.
  split.
  - pose proof (raw_mode_output SampleItem string (fun e => e) sample_Marshal
                  sample_Indent empty_Getenv sample_Pad (SetJSONRaw initGlobals true)
                  "1.0" "ctx" "env" "" [] [Num 1; Num 2] eq_refl) as H.
    cbv zeta in H. destruct H as [_ H].
    unfold sample_GetJSONOutput. rewrite H. reflexivity.
  - pose proof (raw_mode_output SampleItem string (fun e => e) sample_Marshal
                  sample_Indent empty_Getenv sample_Pad (SetJSONRaw initGlobals true)
                  "1.0" "ctx" "env" "" [] [Num 1; Chan] eq_refl) as H.
    cbv zeta in H. destruct H as [_ H].
    unfold sample_GetJSONOutput. rewrite H. reflexivity.
Defined.

Lemma GetJSONOutput_error_ignores_items_witness :
  sample_GetJSONOutput (SetStoredFatalError initGlobals disk_full)
    "1.0" "ctx" "env" "" [] [Num 1; Num 2]
  = sample_GetJSONOutput (SetStoredFatalError initGlobals disk_full)
      "1.0" "ctx" "cfg" "full" ["name"] [Chan].
Proof.
  unfold sample_GetJSONOutput.
  apply (GetJSONOutput_error_ignores_items SampleItem string (fun e => e) sample_Marshal
           sample_Indent empty_Getenv sample_Pad
           (SetStoredFatalError initGlobals disk_full)
           "1.0" "ctx" "env" "" "cfg" "full" [] ["name"] [Num 1; Num 2] [Chan]).
  right. discriminate.
Defined.

Lemma GetJSONOutput_success_root_witness :
  l_apiRoot (sample_root (mkGlobals 2 "" false zeroMsg low_disk zeroMsg)
               "1.0" "ctx" "env" "" [] [Num 1; Num 2])
  = mkApiData SampleItem "1.0" "ctx" 0 None (Some low_disk) None
      (Some (mkJsonData SampleItem "env" "" [] 2 1 2 [Num 1; Num 2])).
Proof.
  destruct (GetJSONOutput_success_root SampleItem string (fun e => e) empty_Getenv
              (mkGlobals 2 "" false zeroMsg low_disk zeroMsg)
              "1.0" "ctx" "env" "" [] [Num 1; Num 2] eq_refl eq_refl) as [H _].
  exact H.
Defined.


Lemma GetJSONOutput_success_witness :
  snd (sample_GetJSONOutput initGlobals "1.0" "ctx" "env" "" [] [Num 1; Num 2]) = false.
Proof.
  destruct (GetJSONOutput_success SampleItem string (fun e => e) sample_Marshal
              sample_Indent empty_Getenv sample_Pad initGlobals
              "1.0" "ctx" "env" "" [] [Num 1; Num 2]
              (match sample_Marshal
                       (l_apiRoot (sample_root initGlobals "1.0" "ctx" "env" "" []
                                     [Num 1; Num 2])) with
               | inl j => j
               | inr _ => []
               end)
              eq_refl eq_refl eq_refl) as [H _].
  unfold sample_GetJSONOutput. rewrite (H _ eq_refl). reflexivity.
Defined.

Lemma GetJSONOutput_version_given_witness :
  GetJSONOutput SampleItem string (fun e => e) sample_Marshal sample_Indent
    empty_Getenv sample_Pad initGlobals "1.0" "ctx" "env" "" [] [Num 1; Num 2]
  = GetJSONOutput SampleItem string (fun e => e) sample_Marshal sample_Indent
      version_Getenv sample_Pad initGlobals "1.0" "ctx" "env" "" [] [Num 1; Num 2].
Proof.
  exact (GetJSONOutput_version_given SampleItem string (fun e => e) sample_Marshal
           sample_Indent sample_Pad empty_Getenv version_Getenv initGlobals
           "1.0" "ctx" "env" "" [] [Num 1; Num 2] ltac:(discriminate)).
Defined.

Lemma missing_version_hides_latched_error_witness :
  sample_GetJSONOutput (SetStoredFatalError initGlobals disk_full)
    "" "ctx" "env" "" [] [Num 1; Num 2]
  = sample_GetJSONOutput initGlobals "" "ctx" "env" "" [] [Num 1; Num 2].
Proof.
  exact (missing_version_hides_latched_error SampleItem string (fun e => e)
           sample_Marshal sample_Indent empty_Getenv sample_Pad initGlobals disk_full
           "" "ctx" "env" "" [] [Num 1; Num 2] eq_refl).
Defined.
